(** * lcc-sdk: the limit-enforcement core of pkg/client

    A shallow embedding of [pkg/client/client.go], [pkg/client/tps_tracker.go]
    and [pkg/client/helpers.go]: the authorization cache, the sliding-window
    TPS tracker, the four product-level admission primitives and the
    package-level concurrency ledger.

    Conventions.
    - Go [int] is a 64-bit two's-complement integer: a [Z] with the
      wrap-around written out by [wrap_int].
    - Go [float64] is IEEE 754 binary64: [spec_float] at precision 53 and
      maximal exponent 1024.
    - [time.Time] is an instant on a nanosecond axis ([Z]); [time.Duration]
      a number of nanoseconds ([Z]).  [t.After u] is [u < t] and [t.Add d] is
      [t + d].
    - Go maps are [gmap]s; reading a missing key of a [map[string]int] gives
      [0].
    - A Go [error] result is an [option error]; [None] is [nil].
    - The HTTP exchanges with the authority are an oracle carried by the
      state, together with the log of the requests that were sent.
    - The methods of the client are state-passing functions on the process
      state; goroutines that run [CheckFeature] at once are a pool of
      program counters stepped by a scheduler. *)

From Stdlib Require Import ZArith Lia Bool List.
From Stdlib Require Import Floats.SpecFloat.
From stdpp Require Import base option list sorting gmap strings.

Local Open Scope string_scope.
Local Open Scope list_scope.
Local Open Scope Z_scope.

(** ** Go integers *)

Definition int_min : Z := - 2 ^ 63.
Definition int_max : Z := 2 ^ 63 - 1.

Definition is_int (z : Z) : Prop := int_min <= z <= int_max.

(** Two's-complement wrap-around of 64-bit [int] arithmetic. *)
Definition wrap_int (z : Z) : Z := (z + 2 ^ 63) mod 2 ^ 64 - 2 ^ 63.

(** ** Go float64 *)

Definition float64 : Type := spec_float.

Definition f64_prec : Z := 53.
Definition f64_emax : Z := 1024.

Definition f64_zero : float64 := S754_zero false.

(** [a <= b] and [a > b] on float64; a comparison with a NaN is false. *)
Definition f64_le (a b : float64) : bool := SFleb a b.
Definition f64_gt (a b : float64) : bool := SFltb b a.

Definition f64_is_nan (a : float64) : bool :=
  match a with S754_nan => true | _ => false end.

(** The conversion [float64(n)] of an [int], rounding to nearest even. *)
Definition float64_of_int (n : Z) : float64 :=
  binary_normalize f64_prec f64_emax n 0 false.

(** The conversion [int(f)]: truncation toward zero.  Go leaves the result
    unspecified when the value does not fit; amd64 yields the smallest
    [int]. *)
Definition int_of_float64 (f : float64) : Z :=
  match f with
  | S754_zero _ => 0
  | S754_finite s m e =>
      let mag := if 0 <=? e then Z.pos m * 2 ^ e else Z.pos m / 2 ^ (- e) in
      let v := if s then - mag else mag in
      if (int_min <=? v) && (v <=? int_max) then v else int_min
  | S754_infinity _ | S754_nan => int_min
  end.

(** ** Errors

    One constructor per [fmt.Errorf] site of the admission core; the
    arguments are the values formatted into the message. *)
Inductive error : Type :=
  | ErrAuthority (msg : string)
      (* queryFeature / ReportUsage: request, transport, status or decode *)
  | ErrQuotaExceeded (reason : string)
      (* "quota exceeded: %s" *)
  | ErrNoCapacityLimit
      (* "no capacity limit configured" *)
  | ErrCapacityExceeded (currentUsed maxCapacity : Z)
      (* "capacity exceeded: %d >= %d" *)
  | ErrTPSExceeded (currentTPS maxTPS : float64)
      (* "TPS exceeded: %.2f > %.2f" *)
  | ErrNoConcurrencyLimit
      (* "no concurrency limit configured" *)
  | ErrConcurrencyExceeded (current maxConcurrency : Z)
      (* "concurrency exceeded: %d >= %d" *)
  | ErrHelpersNil
      (* "helpers cannot be nil" *)
  | ErrCapacityCounterRequired
      (* "helper validation failed: CapacityCounter is required ..." *)
  | ErrQuotaConsumerNotRegistered
      (* "QuotaConsumer helper not registered" *)
  | ErrCapacityCounterNotRegistered.
      (* "CapacityCounter helper not registered (required)" *)

(** ** Data model *)

Record QuotaInfo : Type := {
  Limit : Z;
  Used : Z;
  Remaining : Z;
  ResetAt : Z;
}.

Record FeatureStatus : Type := {
  Enabled : bool;
  Reason : string;
  Quota : option QuotaInfo;
  MaxCapacity : Z;
  MaxTPS : float64;
  MaxConcurrency : Z;
}.

Record cacheEntry : Type := {
  status : FeatureStatus;
  expiresAt : Z;
}.

Record featureCache : Type := {
  data : gmap string cacheEntry;
  ttl : Z;
}.

(** The body of a feature-check response as [queryFeature] decodes it. *)
Record checkResult : Type := {
  r_FeatureID : string;
  r_Enabled : bool;
  r_Reason : string;
  r_QuotaInfo : option QuotaInfo;
  r_MaxCapacity : Z;
  r_MaxTPS : float64;
  r_MaxConcurrency : Z;
  r_CacheTTL : Z;
}.

(** The [FeatureStatus] that [queryFeature] returns for a decoded body; it
    has no field for [FeatureID] nor for [CacheTTL]. *)
Definition status_of (r : checkResult) : FeatureStatus :=
  {| Enabled := r_Enabled r;
     Reason := r_Reason r;
     Quota := r_QuotaInfo r;
     MaxCapacity := r_MaxCapacity r;
     MaxTPS := r_MaxTPS r;
     MaxConcurrency := r_MaxConcurrency r |}.

(** ** Cache methods ([featureCache.get], [featureCache.set],
    [featureCache.clear]) *)

Module Cache.

(** [fc.get(featureID)] evaluated at instant [now]. *)
Definition get (fc : featureCache) (now : Z) (featureID : string)
  : option FeatureStatus :=
  match data fc !! featureID with
  | None => None
  | Some entry =>
      if expiresAt entry <? now (* time.Now().After(entry.expiresAt) *)
      then None
      else Some (status entry)
  end.

(** [fc.set(featureID, status)] evaluated at instant [now]. *)
Definition set (fc : featureCache) (now : Z) (featureID : string)
    (st : FeatureStatus) : featureCache :=
  {| data := <[featureID := {| status := st; expiresAt := now + ttl fc |}]>
               (data fc);
     ttl := ttl fc |}.

Definition clear (fc : featureCache) : featureCache :=
  {| data := ∅; ttl := ttl fc |}.

End Cache.

(** ** The sliding-window TPS tracker ([tps_tracker.go]) *)

Record tpsTracker : Type := {
  requests : list Z;
  window : Z;
}.

Definition second : Z := 1000000000.

Definition newTPSTracker : tpsTracker :=
  {| requests := []; window := second |}.

(** The pruning loop of [RecordRequest]: the index of the first request
    that is after [cutoff], counting from [i]; [0] when the loop runs to its
    end without a [break] ([validIdx] keeps its initial value). *)
Fixpoint firstValidIdx (cutoff : Z) (i : nat) (reqs : list Z) : nat :=
  match reqs with
  | [] => 0%nat
  | req :: rest =>
      if cutoff <? req then i else firstValidIdx cutoff (S i) rest
  end.

(** [t.RecordRequest()] evaluated at instant [now]. *)
Definition RecordRequest (now : Z) (t : tpsTracker) : tpsTracker :=
  let reqs := requests t ++ [now] in
  let cutoff := now - window t in
  let validIdx := firstValidIdx cutoff 0 reqs in
  {| requests := if (0 <? validIdx)%nat then drop validIdx reqs else reqs;
     window := window t |}.

(** The counting loop of [getCurrentRate]. *)
Fixpoint countAfter (cutoff : Z) (reqs : list Z) : Z :=
  match reqs with
  | [] => 0
  | req :: rest =>
      if cutoff <? req then countAfter cutoff rest + 1
      else countAfter cutoff rest
  end.

(** [t.getCurrentRate()] evaluated at instant [now]. *)
Definition getCurrentRate (now : Z) (t : tpsTracker) : float64 :=
  float64_of_int (countAfter (now - window t) (requests t)).

Definition Reset (t : tpsTracker) : tpsTracker :=
  {| requests := []; window := window t |}.

(** [RecordRequest] called at each of the instants [ts], in that order. *)
Definition record_all (ts : list Z) (t : tpsTracker) : tpsTracker :=
  fold_left (fun t now => RecordRequest now t) ts t.

(** ** Measurement providers ([helpers.go])

    A helper slot holds a Go function value.  An application callback is a
    function of what it may observe (the call arguments, the clock); the
    closure that [SetDefaults] installs for the TPS provider is a value of
    its own, since it reads the client's tracker when it is called. *)

(** A value passed as [interface{}]. *)
Inductive goValue : Type :=
  | VInt (n : Z)
  | VFloat (f : float64)
  | VString (s : string)
  | VBool (b : bool).

Inductive quotaConsumer : Type :=
  | defaultQuotaConsumer                      (* returns 1 *)
  | appQuotaConsumer (f : list goValue -> Z).

Inductive tpsProvider : Type :=
  | internalTPSProvider                 (* func() { client.getInternalTPS() } *)
  | appTPSProvider (f : Z -> float64).  (* reads the application's metrics *)

Record HelperFunctions : Type := {
  QuotaConsumer : option quotaConsumer;
  TPSProvider : option tpsProvider;
  CapacityCounter : option (Z -> Z);
}.

Definition Validate (h : HelperFunctions) : option error :=
  match CapacityCounter h with
  | None => Some ErrCapacityCounterRequired
  | Some _ => None
  end.

Definition SetDefaults (h : HelperFunctions) : HelperFunctions :=
  {| QuotaConsumer :=
       match QuotaConsumer h with
       | None => Some defaultQuotaConsumer
       | Some q => Some q
       end;
     TPSProvider :=
       match TPSProvider h with
       | None => Some internalTPSProvider
       | Some p => Some p
       end;
     CapacityCounter := CapacityCounter h |}.

(** ** The client, the authority and the process state *)

Record Client : Type := {
  instanceID : string;
  cache : featureCache;
  helpers : option HelperFunctions;
  c_tpsTracker : option tpsTracker;
}.

(** What the authority answers.  The [n]-th feature check (counting from 0)
    for [featureID] is answered by [on_check n featureID]: the time that
    passes until the answer is there, and either the error [queryFeature]
    returns or the decoded body.  Usage reports likewise. *)
Record Authority : Type := {
  on_check : nat -> string -> Z * (error + checkResult);
  on_usage : nat -> string -> Z -> Z * option error;
}.

Record State : Type := {
  now : Z;                              (* what time.Now() reads *)
  client : Client;
  concurrencyState : gmap string Z;     (* the package-level ledger *)
  authority : Authority;
  queries : list string;                (* feature checks sent, oldest first *)
  reports : list (string * Z);          (* usage reports sent: feature, count *)
}.

Definition with_now (t : Z) (st : State) : State :=
  {| now := t; client := client st; concurrencyState := concurrencyState st;
     authority := authority st; queries := queries st;
     reports := reports st |}.

Definition with_client (c : Client) (st : State) : State :=
  {| now := now st; client := c; concurrencyState := concurrencyState st;
     authority := authority st; queries := queries st;
     reports := reports st |}.

Definition with_ledger (m : gmap string Z) (st : State) : State :=
  {| now := now st; client := client st; concurrencyState := m;
     authority := authority st; queries := queries st;
     reports := reports st |}.

Definition with_cache (fc : featureCache) (c : Client) : Client :=
  {| instanceID := instanceID c; cache := fc; helpers := helpers c;
     c_tpsTracker := c_tpsTracker c |}.

Definition with_helpers (h : option HelperFunctions) (c : Client) : Client :=
  {| instanceID := instanceID c; cache := cache c; helpers := h;
     c_tpsTracker := c_tpsTracker c |}.

Definition with_tracker (t : option tpsTracker) (c : Client) : Client :=
  {| instanceID := instanceID c; cache := cache c; helpers := helpers c;
     c_tpsTracker := t |}.

(** Time passing between two calls of the embedding application. *)
Definition sleep (d : Z) (st : State) : State := with_now (now st + d) st.

(** ** State passing *)

Definition M (A : Type) : Type := State -> A * State.

(** ** The authority round trips *)

(** [c.queryFeature(featureID)]. *)
Definition queryFeature (featureID : string)
  : M (FeatureStatus + error) := fun st =>
  let '(wait, answer) :=
    on_check (authority st) (length (queries st)) featureID in
  let st1 :=
    {| now := now st + wait; client := client st;
       concurrencyState := concurrencyState st; authority := authority st;
       queries := queries st ++ [featureID]; reports := reports st |} in
  match answer with
  | inl err => (inr err, st1)
  | inr result => (inl (status_of result), st1)
  end.

(** [c.ReportUsage(featureID, amount)]; the request body carries
    [int(amount)]. *)
Definition ReportUsage (featureID : string) (amount : float64)
  : M (option error) := fun st =>
  let count := int_of_float64 amount in
  let '(wait, answer) :=
    on_usage (authority st) (length (reports st)) featureID count in
  (answer,
   {| now := now st + wait; client := client st;
      concurrencyState := concurrencyState st; authority := authority st;
      queries := queries st; reports := reports st ++ [(featureID, count)] |}).

(** [c.CheckFeature(featureID)]. *)
Definition CheckFeature (featureID : string)
  : M (FeatureStatus + error) := fun st =>
  match Cache.get (cache (client st)) (now st) featureID with
  | Some s => (inl s, st)
  | None =>
      let '(r, st1) := queryFeature featureID st in
      match r with
      | inr err => (inr err, st1)
      | inl s =>
          (inl s,
           with_client
             (with_cache (Cache.set (cache (client st1)) (now st1) featureID s)
                (client st1)) st1)
      end
  end.

Definition ClearCache : M unit := fun st =>
  (tt, with_client (with_cache (Cache.clear (cache (client st))) (client st)) st).

(** ** Helper registration and the measurement of the current TPS *)

(** [c.RegisterHelpers(helpers)]. *)
Definition RegisterHelpers (h : option HelperFunctions) : M (option error) :=
  fun st =>
  match h with
  | None => (Some ErrHelpersNil, st)
  | Some hs =>
      match Validate hs with
      | Some err => (Some err, st)
      | None =>
          (None, with_client (with_helpers (Some (SetDefaults hs)) (client st)) st)
      end
  end.

(** [c.getInternalTPS()]. *)
Definition getInternalTPS (st : State) : float64 :=
  match c_tpsTracker (client st) with
  | None => f64_zero
  | Some t => getCurrentRate (now st) t
  end.

(** [c.getCurrentTPS()]. *)
Definition getCurrentTPS (st : State) : float64 :=
  match helpers (client st) with
  | Some h =>
      match TPSProvider h with
      | Some internalTPSProvider => getInternalTPS st
      | Some (appTPSProvider f) => f (now st)
      | None => getInternalTPS st
      end
  | None => getInternalTPS st
  end.

(** ** The zero-intrusion product-level API *)

Definition product_key : string := "__product__".

(** [c.checkProductLimits()]. *)
Definition checkProductLimits : M (FeatureStatus + error) :=
  CheckFeature product_key.

(** [c.reportProductUsage(amount)]. *)
Definition reportProductUsage (amount : Z) : M (option error) :=
  ReportUsage product_key (float64_of_int amount).

(** The first statement of [Consume]: feed the tracker when there is one. *)
Definition recordTPS (st : State) : State :=
  match c_tpsTracker (client st) with
  | None => st
  | Some t =>
      with_client
        (with_tracker (Some (RecordRequest (now st) t)) (client st)) st
  end.

(** [c.Consume(amount)]: the results are [(allowed, remaining, err)]. *)
Definition Consume (amount : Z) : M (bool * Z * option error) := fun st =>
  let '(r, st1) := checkProductLimits (recordTPS st) in
  match r with
  | inr err => ((false, 0, Some err), st1)
  | inl status =>
      if negb (Enabled status) then
        let remaining :=
          match Quota status with
          | Some q => Remaining q
          | None => 0
          end in
        ((false, remaining, Some (ErrQuotaExceeded (Reason status))), st1)
      else
        let '(e, st2) := reportProductUsage amount st1 in
        match e with
        | Some err => ((false, 0, Some err), st2)
        | None =>
            let remaining :=
              match Quota status with
              | Some q =>
                  let remaining := wrap_int (Remaining q - amount) in
                  if remaining <? 0 then 0 else remaining
              | None => 0
              end in
            ((true, remaining, None), st2)
        end
  end.

(** [c.ConsumeWithContext(ctx, args...)]. *)
Definition ConsumeWithContext (args : list goValue)
  : M (bool * Z * option error) := fun st =>
  match helpers (client st) with
  | Some {| QuotaConsumer := Some q |} =>
      let amount :=
        match q with
        | defaultQuotaConsumer => 1
        | appQuotaConsumer f => f args
        end in
      Consume amount st
  | _ => ((false, 0, Some ErrQuotaConsumerNotRegistered), st)
  end.

(** [c.CheckCapacity(currentUsed)]: [(allowed, maxCapacity, err)]. *)
Definition CheckCapacity (currentUsed : Z) : M (bool * Z * option error) :=
  fun st =>
  let '(r, st1) := checkProductLimits st in
  match r with
  | inr err => ((false, 0, Some err), st1)
  | inl status =>
      let maxCapacity := MaxCapacity status in
      if maxCapacity <=? 0 then
        ((false, 0, Some ErrNoCapacityLimit), st1)
      else if maxCapacity <=? currentUsed then
        ((false, maxCapacity,
          Some (ErrCapacityExceeded currentUsed maxCapacity)), st1)
      else
        ((true, maxCapacity, None), st1)
  end.

(** [c.CheckCapacityWithHelper()]. *)
Definition CheckCapacityWithHelper : M (bool * Z * option error) := fun st =>
  match helpers (client st) with
  | Some {| CapacityCounter := Some counter |} =>
      CheckCapacity (counter (now st)) st
  | _ => ((false, 0, Some ErrCapacityCounterNotRegistered), st)
  end.

(** [c.CheckTPS()]: [(allowed, maxTPS, err)]. *)
Definition CheckTPS : M (bool * float64 * option error) := fun st =>
  let currentTPS := getCurrentTPS st in
  let '(r, st1) := checkProductLimits st in
  match r with
  | inr err => ((false, f64_zero, Some err), st1)
  | inl status =>
      let maxTPS := MaxTPS status in
      if f64_le maxTPS f64_zero then
        ((true, f64_zero, None), st1)
      else if f64_gt currentTPS maxTPS then
        ((false, maxTPS, Some (ErrTPSExceeded currentTPS maxTPS)), st1)
      else
        ((true, maxTPS, None), st1)
  end.

(** ** The concurrency ledger *)

(** A [ReleaseFunc] value: [nil], the literal [func() {}], or the closure
    that [AcquireSlot] builds over [key]. *)
Inductive ReleaseFunc : Type :=
  | nil_func
  | noop_func
  | release_slot (key : string).

(** [concurrencyState[key]]. *)
Definition ledger_count (key : string) (m : gmap string Z) : Z :=
  default 0 (m !! key).

Definition slot_key (c : Client) : string :=
  String.append (instanceID c) "::__product__".

(** [c.AcquireSlot()]: [(release, allowed, err)]. *)
Definition AcquireSlot : M (ReleaseFunc * bool * option error) := fun st =>
  let '(r, st1) := checkProductLimits st in
  match r with
  | inr err => ((noop_func, false, Some err), st1)
  | inl status =>
      let maxConcurrency := MaxConcurrency status in
      if maxConcurrency <=? 0 then
        ((noop_func, false, Some ErrNoConcurrencyLimit), st1)
      else
        let key := slot_key (client st1) in
        let current := ledger_count key (concurrencyState st1) in
        if maxConcurrency <=? current then
          ((noop_func, false,
            Some (ErrConcurrencyExceeded current maxConcurrency)), st1)
        else
          ((release_slot key, true, None),
           with_ledger
             (<[key := wrap_int (current + 1)]> (concurrencyState st1)) st1)
  end.

(** The body of the release closure. *)
Definition release_body (key : string) (m : gmap string Z) : gmap string Z :=
  let cur := ledger_count key m in
  if cur <=? 1 then delete key m else <[key := wrap_int (cur - 1)]> m.

(** Calling a [ReleaseFunc]; calling [nil] panics ([None]). *)
Definition call (release : ReleaseFunc) (st : State) : option State :=
  match release with
  | nil_func => None
  | noop_func => Some st
  | release_slot key =>
      Some (with_ledger (release_body key (concurrencyState st)) st)
  end.

(** Calling it [n] times in a row. *)
Fixpoint call_times (n : nat) (release : ReleaseFunc) (st : State)
  : option State :=
  match n with
  | O => Some st
  | S k =>
      match call release st with
      | None => None
      | Some st1 => call_times k release st1
      end
  end.

(** ** Concurrent callers of [CheckFeature]

    [CheckFeature] takes the cache lock twice, once inside [get] and once
    inside [set], and no lock in between.  A goroutine that runs it is
    therefore a sequence of four atomic steps, between which the other
    goroutines may run. *)

Inductive pc : Type :=
  | AtGet                         (* about to call c.cache.get *)
  | AtQuery                       (* saw a miss; about to send the request *)
  | InFlight (n : nat)            (* request number n sent, answer awaited *)
  | AtSet (s : FeatureStatus)     (* answer decoded; about to call c.cache.set *)
  | Returned (r : FeatureStatus + error).

(** One atomic step of a goroutine that runs [CheckFeature k]. *)
Definition step_caller (k : string) (p : pc) (st : State) : pc * State :=
  match p with
  | AtGet =>
      match Cache.get (cache (client st)) (now st) k with
      | Some s => (Returned (inl s), st)
      | None => (AtQuery, st)
      end
  | AtQuery =>
      (InFlight (length (queries st)),
       {| now := now st; client := client st;
          concurrencyState := concurrencyState st; authority := authority st;
          queries := queries st ++ [k]; reports := reports st |})
  | InFlight n =>
      let '(wait, answer) := on_check (authority st) n k in
      let st1 := with_now (now st + wait) st in
      match answer with
      | inl err => (Returned (inr err), st1)
      | inr result => (AtSet (status_of result), st1)
      end
  | AtSet s =>
      (Returned (inl s),
       with_client
         (with_cache (Cache.set (cache (client st)) (now st) k s) (client st))
         st)
  | Returned r => (Returned r, st)
  end.

(** The goroutines of the process that are inside [CheckFeature], each with
    the key it asks for, and the state they share. *)
Record Pool : Type := {
  shared : State;
  callers : list (string * pc);
}.

(** The scheduler lets caller [i] take its next step. *)
Definition step_pool (i : nat) (p : Pool) : Pool :=
  match callers p !! i with
  | None => p
  | Some (k, c) =>
      let '(c', st') := step_caller k c (shared p) in
      {| shared := st'; callers := <[i := (k, c')]> (callers p) |}
  end.

Definition run (schedule : list nat) (p : Pool) : Pool :=
  fold_left (fun p i => step_pool i p) schedule p.

(** [n] goroutines call [CheckFeature k] at once. *)
Definition spawn (n : nat) (k : string) (st : State) : Pool :=
  {| shared := st; callers := replicate n (k, AtGet) |}.





(** ** The feature-level API (deprecated variants)

    The [meta] arguments of [ConsumeDeprecated] and [AcquireSlotDeprecated]
    are not used by their bodies and are left out.  The results are
    [(allowed, value, reason, err)]. *)

(** [c.ConsumeDeprecated(featureID, amount, meta)]. *)
Definition ConsumeDeprecated (featureID : string) (amount : Z)
  : M (bool * Z * string * option error) := fun st =>
  let '(r, st1) := CheckFeature featureID st in
  match r with
  | inr err => ((false, 0, "check_error", Some err), st1)
  | inl status =>
      if negb (Enabled status) then
        let remaining :=
          match Quota status with
          | Some q => Remaining q
          | None => 0
          end in
        ((false, remaining, Reason status, None), st1)
      else
        let '(e, st2) := ReportUsage featureID (float64_of_int amount) st1 in
        match e with
        | Some err => ((false, 0, "usage_error", Some err), st2)
        | None =>
            let remaining :=
              match Quota status with
              | Some q =>
                  let remaining := wrap_int (Remaining q - amount) in
                  if remaining <? 0 then 0 else remaining
              | None => 0
              end in
            ((true, remaining, "ok", None), st2)
        end
  end.

(** [c.CheckCapacityDeprecated(featureID, currentUsed)]. *)
Definition CheckCapacityDeprecated (featureID : string) (currentUsed : Z)
  : M (bool * Z * string * option error) := fun st =>
  let '(r, st1) := CheckFeature featureID st in
  match r with
  | inr err => ((false, 0, "check_error", Some err), st1)
  | inl status =>
      let max := MaxCapacity status in
      if max <=? 0 then
        ((false, 0, "no_capacity_limit", None), st1)
      else if max <? currentUsed then
        ((false, max, "capacity_exceeded", None), st1)
      else
        ((true, max, "ok", None), st1)
  end.

(** [c.CheckTPSDeprecated(featureID, currentTPS)]. *)
Definition CheckTPSDeprecated (featureID : string) (currentTPS : float64)
  : M (bool * float64 * string * option error) := fun st =>
  let '(r, st1) := CheckFeature featureID st in
  match r with
  | inr err => ((false, f64_zero, "check_error", Some err), st1)
  | inl status =>
      let max := MaxTPS status in
      if f64_le max f64_zero then
        ((false, f64_zero, "no_tps_limit", None), st1)
      else if f64_gt currentTPS max then
        ((false, max, "tps_exceeded", None), st1)
      else
        ((true, max, "ok", None), st1)
  end.

(** The ledger key of [AcquireSlotDeprecated]:
    [c.instanceID + "::" + featureID]. *)
Definition feature_slot_key (c : Client) (featureID : string) : string :=
  String.append (String.append (instanceID c) "::") featureID.

(** [c.AcquireSlotDeprecated(featureID, meta)].  The client's cache pointer
    is not [nil] here ([CheckFeature] has just used it), and the lookup of
    [concurrencyState[c.instanceID]] has no effect. *)
Definition AcquireSlotDeprecated (featureID : string)
  : M (ReleaseFunc * bool * string * option error) := fun st =>
  let '(r, st1) := CheckFeature featureID st in
  match r with
  | inr err => ((noop_func, false, "check_error", Some err), st1)
  | inl status =>
      let max := MaxConcurrency status in
      if max <=? 0 then
        ((noop_func, false, "no_concurrency_limit", None), st1)
      else
        let key := feature_slot_key (client st1) featureID in
        let current := ledger_count key (concurrencyState st1) in
        if max <=? current then
          ((noop_func, false, "concurrency_exceeded", None), st1)
        else
          ((release_slot key, true, "ok", None),
           with_ledger
             (<[key := wrap_int (current + 1)]> (concurrencyState st1)) st1)
  end.

(** [c.GetInstanceID()]. *)
Definition GetInstanceID (st : State) : string := instanceID (client st).

(** ** Configuration ([pkg/config/types.go], [pkg/config/parser.go])

    [types.go] is taken in its revision with product-level limits, the one
    that [pkg/codegen/generator.go] reads ([g.manifest.SDK.Limits]).  The
    earlier revision has no [Limits] in [SDKConfig] and no check of it in
    [SDKConfig.Validate]: it behaves as this one does on [Limits = nil]. *)

Module Config.

Record ProductQuotaConfig : Type := {
  Max : Z;
  Window : string;
}.

Record ProductLimits : Type := {
  Quota_ : option ProductQuotaConfig;
  MaxTPS : float64;
  MaxCapacity : Z;
  MaxConcurrency : Z;
  Consumer : string;
  TPSProvider : string;
  CapacityCounter : string;
}.

Record SDKConfig : Type := {
  LCCURL : string;
  ProductID : string;
  ProductVersion : string;
  CheckInterval : Z;
  CacheTTL : Z;
  FailOpen : bool;
  Timeout : Z;
  MaxRetries : Z;
  Limits : option ProductLimits;
}.

Record InterceptConfig : Type := {
  Package : string;
  Function : string;
  Pattern : string;
}.

Record QuotaConfig : Type := {
  Limit : Z;
  Period : string;
  ResetTime : string;
}.

Record ConditionConfig : Type := {
  Type_ : string;
  Check_ : string;
}.

Record OnDenyConfig : Type := {
  Action : string;
  Message_ : string;
  Code : string;
}.

Record FeatureConfig : Type := {
  ID : string;
  Name : string;
  Description : string;
  Tier : string;
  Required : bool;
  Intercept : InterceptConfig;
  Fallback : option InterceptConfig;
  Quota : option QuotaConfig;
  Condition : option ConditionConfig;
  OnDeny : option OnDenyConfig;
  Category : string;
  Tags : list string;
}.

Record Manifest : Type := {
  SDK : SDKConfig;
  Features : list FeatureConfig;
}.

Record ValidationError : Type := {
  Field : string;
  Message : string;
}.

(** [e.Error()]. *)
Definition Error (e : ValidationError) : string :=
  String.append "validation error in field '"
    (String.append (Field e) (String.append "': " (Message e))).

(** The conversion [rune(i)] of an [int]: the low 32 bits, signed. *)
Definition rune_of_int (i : Z) : Z := (i + 2 ^ 31) mod 2 ^ 32 - 2 ^ 31.

Definition byte (z : Z) : string :=
  String (Ascii.ascii_of_N (Z.to_N z)) EmptyString.

(** The conversion [string(r)] of a rune: its UTF-8 encoding, and the
    encoding of U+FFFD for what is not a valid code point. *)
Definition string_of_rune (r : Z) : string :=
  if (r <? 0) || (1114111 <? r) || ((55296 <=? r) && (r <=? 57343)) then
    String.append (byte 239) (String.append (byte 191) (byte 189))
  else if r <? 128 then
    byte r
  else if r <? 2048 then
    String.append (byte (192 + r / 64)) (byte (128 + r mod 64))
  else if r <? 65536 then
    String.append (byte (224 + r / 4096))
      (String.append (byte (128 + (r / 64) mod 64)) (byte (128 + r mod 64)))
  else
    String.append (byte (240 + r / 262144))
      (String.append (byte (128 + (r / 4096) mod 64))
         (String.append (byte (128 + (r / 64) mod 64))
            (byte (128 + r mod 64)))).

(** [p.Validate()] of a [*ProductLimits]; [None] is the [nil] receiver.
    The comparison [p.MaxTPS < 0] is false for a NaN. *)
Definition ProductLimits_Validate (p : option ProductLimits)
  : option ValidationError :=
  match p with
  | None => None
  | Some p =>
      match
        match Quota_ p with
        | Some q =>
            if Max q <=? 0 then
              Some {| Field := "limits.quota.max";
                      Message := "must be positive" |}
            else if String.eqb (Window q) "" then
              Some {| Field := "limits.quota.window"; Message := "required" |}
            else None
        | None => None
        end
      with
      | Some err => Some err
      | None =>
          if SFltb (MaxTPS p) f64_zero then
            Some {| Field := "limits.max_tps";
                    Message := "must be non-negative" |}
          else if MaxCapacity p <? 0 then
            Some {| Field := "limits.max_capacity";
                    Message := "must be non-negative" |}
          else if MaxConcurrency p <? 0 then
            Some {| Field := "limits.max_concurrency";
                    Message := "must be non-negative" |}
          else None
      end
  end.

(** The four assignments under [// Set defaults] of [SDKConfig.Validate]. *)
Definition set_defaults (c : SDKConfig) : SDKConfig :=
  {| LCCURL := LCCURL c;
     ProductID := ProductID c;
     ProductVersion := ProductVersion c;
     CheckInterval :=
       if CheckInterval c =? 0 then 30 * second else CheckInterval c;
     CacheTTL := if CacheTTL c =? 0 then 10 * second else CacheTTL c;
     FailOpen := FailOpen c;
     Timeout := if Timeout c =? 0 then 5 * second else Timeout c;
     MaxRetries := if MaxRetries c =? 0 then 3 else MaxRetries c;
     Limits := Limits c |}.

(** [c.Validate()] of an [SDKConfig]: the error, and the configuration as
    the call leaves it (the defaults are written into the receiver, before
    the limits are validated). *)
Definition SDKConfig_Validate (c : SDKConfig)
  : option ValidationError * SDKConfig :=
  if String.eqb (LCCURL c) "" then
    (Some {| Field := "sdk.lcc_url"; Message := "required" |}, c)
  else if String.eqb (ProductID c) "" then
    (Some {| Field := "sdk.product_id"; Message := "required" |}, c)
  else if String.eqb (ProductVersion c) "" then
    (Some {| Field := "sdk.product_version"; Message := "required" |}, c)
  else
    (ProductLimits_Validate (Limits c), set_defaults c).

Definition InterceptConfig_Validate (i : InterceptConfig)
  : option ValidationError :=
  if String.eqb (Package i) "" then
    Some {| Field := "package"; Message := "required" |}
  else if String.eqb (Function i) "" && String.eqb (Pattern i) "" then
    Some {| Field := "function";
            Message := "either function or pattern is required" |}
  else None.

Definition validPeriods : list string :=
  ["daily"; "hourly"; "monthly"; "minute"].

Definition QuotaConfig_Validate (q : QuotaConfig) : option ValidationError :=
  if Limit q <=? 0 then
    Some {| Field := "limit"; Message := "must be positive" |}
  else if negb (existsb (String.eqb (Period q)) validPeriods) then
    Some {| Field := "period";
            Message := "must be one of: daily, hourly, monthly, minute" |}
  else None.

Definition validActions : list string :=
  ["fallback"; "error"; "warn"; "filter"].

Definition OnDenyConfig_Validate (o : OnDenyConfig) : option ValidationError :=
  if negb (existsb (String.eqb (Action o)) validActions) then
    Some {| Field := "action";
            Message := "must be one of: fallback, error, warn, filter" |}
  else None.

(** The wrapping [&ValidationError{Field: field, Message: err.Error()}] of
    the error of a part, when there is one. *)
Definition wrap_error (field : string) (e : option ValidationError)
  : option ValidationError :=
  match e with
  | Some err => Some {| Field := field; Message := Error err |}
  | None => None
  end.

Definition FeatureConfig_Validate (f : FeatureConfig)
  : option ValidationError :=
  if String.eqb (ID f) "" then
    Some {| Field := "id"; Message := "required" |}
  else if String.eqb (Name f) "" then
    Some {| Field := "name"; Message := "required" |}
  else
    match wrap_error "intercept" (InterceptConfig_Validate (Intercept f)) with
    | Some err => Some err
    | None =>
    match wrap_error "fallback"
            (match Fallback f with
             | Some fb => InterceptConfig_Validate fb
             | None => None
             end) with
    | Some err => Some err
    | None =>
    match wrap_error "quota"
            (match Quota f with
             | Some q => QuotaConfig_Validate q
             | None => None
             end) with
    | Some err => Some err
    | None =>
        wrap_error "on_deny"
          (match OnDeny f with
           | Some o => OnDenyConfig_Validate o
           | None => None
           end)
    end end end.

(** The loop of [m.Validate()] over the features from index [i] on, with the
    identifiers seen so far. *)
Fixpoint validate_features (i : Z) (featureIDs : gset string)
    (features : list FeatureConfig) : option ValidationError :=
  match features with
  | [] => None
  | feature :: rest =>
      match FeatureConfig_Validate feature with
      | Some err =>
          Some {| Field :=
                    String.append "features["
                      (String.append (string_of_rune (rune_of_int i)) "]");
                  Message := Error err |}
      | None =>
          if bool_decide (ID feature ∈ featureIDs) then
            Some {| Field :=
                      String.append "features["
                        (String.append (string_of_rune (rune_of_int i))
                           "].id");
                    Message :=
                      String.append "duplicate feature ID: " (ID feature) |}
          else
            validate_features (i + 1) ({[ID feature]} ∪ featureIDs) rest
      end
  end.

(** [m.Validate()]: the error, and the manifest as the call leaves it. *)
Definition Manifest_Validate (m : Manifest)
  : option ValidationError * Manifest :=
  let '(e, sdk) := SDKConfig_Validate (SDK m) in
  let m1 := {| SDK := sdk; Features := Features m |} in
  match e with
  | Some err => (Some err, m1)
  | None => (validate_features 0 ∅ (Features m), m1)
  end.

(** [ValidateManifest(manifest)]. *)
Definition ValidateManifest (m : Manifest)
  : option ValidationError * Manifest := Manifest_Validate m.

(** [GetDefaults()]. *)
Definition GetDefaults : Manifest :=
  {| SDK :=
       {| LCCURL := "http://localhost:7086";
          ProductID := "";
          ProductVersion := "";
          CheckInterval := 30 * second;
          CacheTTL := 10 * second;
          FailOpen := false;
          Timeout := 5 * second;
          MaxRetries := 3;
          Limits := None |};
     Features := [] |}.

(** [m.FindFeature(id)]: the first feature with that identifier. *)
Fixpoint find_feature (id : string) (features : list FeatureConfig)
  : option FeatureConfig :=
  match features with
  | [] => None
  | f :: rest => if String.eqb (ID f) id then Some f else find_feature id rest
  end.

Definition FindFeature (m : Manifest) (id : string) : option FeatureConfig :=
  find_feature id (Features m).

(** [m.HasFeature(id)]. *)
Definition HasFeature (m : Manifest) (id : string) : bool :=
  match FindFeature m id with
  | Some _ => true
  | None => false
  end.

(** [m.GetFeatureIDs()]. *)
Definition GetFeatureIDs (m : Manifest) : list string :=
  map ID (Features m).

(** [m.GetFeaturesByTier(tier)]. *)
Definition GetFeaturesByTier (m : Manifest) (tier : string)
  : list FeatureConfig :=
  List.filter (fun f => String.eqb (Tier f) tier) (Features m).

(** [m.GetRequiredFeatures()]. *)
Definition GetRequiredFeatures (m : Manifest) : list FeatureConfig :=
  List.filter Required (Features m).

End Config.

(** ** Construction of the client *)

(** A key pair, as far as the client looks at it: what [GetFingerprint]
    returns. *)
Record KeyPair : Type := {
  GetFingerprint : string + string;   (* the fingerprint, or the failure *)
}.

Inductive constructionError : Type :=
  | ErrKeyPairNil                     (* "keyPair is nil" *)
  | ErrFingerprint (cause : string).  (* "failed to get fingerprint: %w" *)

(** [NewClientWithKeyPair(cfg, keyPair)]. *)
Definition NewClientWithKeyPair (cfg : Config.SDKConfig)
    (keyPair : option KeyPair) : Client + constructionError :=
  match keyPair with
  | None => inr ErrKeyPairNil
  | Some kp =>
      match GetFingerprint kp with
      | inr cause => inr (ErrFingerprint cause)
      | inl fingerprint =>
          inl {| instanceID := fingerprint;
                 cache := {| data := ∅; ttl := Config.CacheTTL cfg |};
                 helpers := None;
                 c_tpsTracker := Some newTPSTracker |}
      end
  end.

(** The process right after the client was built, at instant [t]. *)
Definition boot (c : Client) (a : Authority) (t : Z) : State :=
  {| now := t; client := c; concurrencyState := ∅; authority := a;
     queries := []; reports := [] |}.

(** ** Sequences of calls *)

(** The application calls [CheckFeature k] again and again, letting the time
    [d] pass before each call; the results, in order, and the final state. *)
Fixpoint poll (k : string) (ds : list Z) (st : State)
  : list (FeatureStatus + error) * State :=
  match ds with
  | [] => ([], st)
  | d :: rest =>
      let '(r, st1) := CheckFeature k (sleep d st) in
      let '(rs, st2) := poll k rest st1 in
      (r :: rs, st2)
  end.

Definition total (ds : list Z) : Z := fold_right Z.add 0 ds.

(** What the goroutines of the application do with the concurrency pool, in
    the order in which they get the client's lock: acquire a slot, call a
    release function (any, any number of times), or let time pass. *)
Inductive slot_op : Type :=
  | Acquire
  | Release (release : ReleaseFunc)
  | Wait (d : Z).

Definition run_op (op : slot_op) (st : State) : State :=
  match op with
  | Acquire => snd (AcquireSlot st)
  | Release release =>
      match call release st with
      | Some st1 => st1
      | None => st          (* the goroutine panicked; the ledger is as it was *)
      end
  | Wait d => sleep d st
  end.

Definition run_ops (ops : list slot_op) (st : State) : State :=
  fold_left (fun st op => run_op op st) ops st.

(** A ledger as the client keeps it: every count that is stored is at least
    one (and a Go [int]). *)
Definition ledger_ok (m : gmap string Z) : Prop :=
  forall k v, m !! k = Some v -> 1 <= v <= int_max.

(** Every snapshot the process can get for the product key, from the
    authority or from the cache, carries the concurrency limit [max]. *)
Definition limit_is (max : Z) (st : State) : Prop :=
  (forall n k wait result,
     on_check (authority st) n k = (wait, inr result) ->
     r_MaxConcurrency result = max) /\
  (forall entry,
     data (cache (client st)) !! product_key = Some entry ->
     MaxConcurrency (status entry) = max).

(** No callback of the application stands between [getCurrentTPS] and the
    tracker: no helpers, no provider, or the closure of [SetDefaults]. *)
Definition measures_internally (c : Client) : bool :=
  match helpers c with
  | Some h =>
      match TPSProvider h with
      | Some (appTPSProvider _) => false
      | _ => true
      end
  | None => true
  end.

(** ** Fixtures: a client, an authority and a fresh process

    Concrete inputs for the closed examples below. *)

Definition demo_cache : featureCache := {| data := ∅; ttl := 10 * second |}.

Definition demo_client : Client :=
  {| instanceID := "fp-abc123"; cache := demo_cache; helpers := None;
     c_tpsTracker := Some newTPSTracker |}.

(** An authority that answers every check at once with [r] and accepts every
    usage report. *)
Definition always (r : checkResult) : Authority :=
  {| on_check := fun _ _ => (0, inr r);
     on_usage := fun _ _ _ => (0, None) |}.

Definition fresh (a : Authority) : State :=
  {| now := 0; client := demo_client; concurrencyState := ∅; authority := a;
     queries := []; reports := [] |}.

(** The product-level answer of the server documentation, with
    [max_concurrency] 2. *)
Definition licensed : checkResult :=
  {| r_FeatureID := "__product__"; r_Enabled := true; r_Reason := "ok";
     r_QuotaInfo :=
       Some {| Limit := 1000; Used := 0; Remaining := 1000;
               ResetAt := 1706054400 |};
     r_MaxCapacity := 500; r_MaxTPS := float64_of_int 100;
     r_MaxConcurrency := 2; r_CacheTTL := 30 |}.

(** A denial: the quota is used up. *)
Definition exhausted : checkResult :=
  {| r_FeatureID := "__product__"; r_Enabled := false;
     r_Reason := "quota_exceeded"; r_QuotaInfo := None;
     r_MaxCapacity := 500; r_MaxTPS := float64_of_int 100;
     r_MaxConcurrency := 2; r_CacheTTL := 30 |}.

(** An answer with 10 units of quota remaining. *)
Definition ten_left : checkResult :=
  {| r_FeatureID := "__product__"; r_Enabled := true; r_Reason := "ok";
     r_QuotaInfo :=
       Some {| Limit := 1000; Used := 990; Remaining := 10;
               ResetAt := 1706054400 |};
     r_MaxCapacity := 500; r_MaxTPS := float64_of_int 100;
     r_MaxConcurrency := 2; r_CacheTTL := 30 |}.

(** A measurement provider that reports NaN, as a rate computed over an
    empty interval is. *)
Definition nan_helpers : HelperFunctions :=
  {| QuotaConsumer := None;
     TPSProvider := Some (appTPSProvider (fun _ => S754_nan));
     CapacityCounter := Some (fun _ => 0) |}.


(** Two slots are held against [max_concurrency = 2]. *)
Definition two_held : State :=
  snd (AcquireSlot (snd (AcquireSlot (fresh (always licensed))))).

(** An authority that cannot be reached: every request fails after three
    seconds. *)
Definition unreachable : Authority :=
  {| on_check := fun _ _ => (3 * second, inl (ErrAuthority "request failed"));
     on_usage :=
       fun _ _ _ => (3 * second, Some (ErrAuthority "request failed")) |}.

(** An authority that admits and whose usage endpoint fails. *)
Definition usage_down : Authority :=
  {| on_check := fun _ _ => (0, inr licensed);
     on_usage :=
       fun _ _ _ => (3 * second, Some (ErrAuthority "usage report failed")) |}.

(** The configuration of [examples/zero-intrusion/main.go]: no lifetime, no
    timeout. *)
Definition example_config : Config.SDKConfig :=
  {| Config.LCCURL := "http://localhost:7086";
     Config.ProductID := "demo-app";
     Config.ProductVersion := "2.0.0";
     Config.CheckInterval := 0;
     Config.CacheTTL := 0;
     Config.FailOpen := false;
     Config.Timeout := 0;
     Config.MaxRetries := 0;
     Config.Limits := None |}.

Definition demo_keypair : KeyPair := {| GetFingerprint := inl "fp-abc123" |}.

(** An answer that admits and configures no limit at all. *)
Definition unlimited : checkResult :=
  {| r_FeatureID := "__product__"; r_Enabled := true; r_Reason := "ok";
     r_QuotaInfo := None; r_MaxCapacity := 0; r_MaxTPS := f64_zero;
     r_MaxConcurrency := 0; r_CacheTTL := 0 |}.

(** The helpers of [examples/zero-intrusion/main.go], the TPS provider
    left out: the batch size is the first argument when that is an [int]. *)
Definition batch_helpers : HelperFunctions :=
  {| QuotaConsumer :=
       Some (appQuotaConsumer
               (fun args =>
                  match args with
                  | VInt batchSize :: _ => batchSize
                  | _ => 1
                  end));
     TPSProvider := None;
     CapacityCounter := Some (fun _ => 100) |}.

(** Helpers with the mandatory counter only. *)
Definition counter_only : HelperFunctions :=
  {| QuotaConsumer := None; TPSProvider := None;
     CapacityCounter := Some (fun _ => 100) |}.

Definition export_feature : Config.FeatureConfig :=
  {| Config.ID := "feature-export";
     Config.Name := "Export";
     Config.Description := "";
     Config.Tier := "";
     Config.Required := false;
     Config.Intercept :=
       {| Config.Package := "github.com/yourorg/app/export";
          Config.Function := "Run";
          Config.Pattern := "" |};
     Config.Fallback := None;
     Config.Quota := None;
     Config.Condition := None;
     Config.OnDeny := None;
     Config.Category := "";
     Config.Tags := [] |}.

(** A feature without a name. *)
Definition unnamed_feature : Config.FeatureConfig :=
  {| Config.ID := "feature-report";
     Config.Name := "";
     Config.Description := "";
     Config.Tier := "";
     Config.Required := false;
     Config.Intercept := Config.Intercept export_feature;
     Config.Fallback := None;
     Config.Quota := None;
     Config.Condition := None;
     Config.OnDeny := None;
     Config.Category := "";
     Config.Tags := [] |}.

Definition demo_manifest : Config.Manifest :=
  {| Config.SDK := example_config;
     Config.Features := [export_feature; unnamed_feature] |}.


(** The configuration of the example with product limits whose capacity is
    negative. *)
Definition negative_capacity_config : Config.SDKConfig :=
  {| Config.LCCURL := Config.LCCURL example_config;
     Config.ProductID := Config.ProductID example_config;
     Config.ProductVersion := Config.ProductVersion example_config;
     Config.CheckInterval := 0;
     Config.CacheTTL := 0;
     Config.FailOpen := false;
     Config.Timeout := 0;
     Config.MaxRetries := 0;
     Config.Limits :=
       Some {| Config.Quota_ := None;
               Config.MaxTPS := float64_of_int 100;
               Config.MaxCapacity := -1;
               Config.MaxConcurrency := 2;
               Config.Consumer := "";
               Config.TPSProvider := "";
               Config.CapacityCounter := "" |} |}.

(** * Properties *)

(** ** Integers *)

Lemma wrap_int_id (z : Z) : is_int z -> wrap_int z = z.
Proof.
  unfold is_int, int_min, int_max, wrap_int. intros H.
  rewrite Z.mod_small; lia.
Qed.

Lemma is_int_small (z : Z) : -1000000 <= z <= 1000000 -> is_int z.
Proof. unfold is_int, int_min, int_max. lia. Qed.

Lemma wrap_int_range (z : Z) : is_int (wrap_int z).
Proof.
  unfold is_int, int_min, int_max, wrap_int.
  pose proof (Z.mod_pos_bound (z + 2 ^ 63) (2 ^ 64) ltac:(lia)). lia.
Qed.

(** ** Integers that float64 represents exactly

    An [int] of magnitude below [2^53] survives the conversions
    [int(float64(n))] that [reportProductUsage] and [ReportUsage] make. *)

Lemma digits2_pos_iter (m d : positive) :
  digits2_pos (Pos.iter xO m d) = (digits2_pos m + d)%positive.
Proof.
  induction d as [|d IH] using Pos.peano_ind.
  - simpl. rewrite Pos.add_1_r. reflexivity.
  - rewrite Pos.iter_succ. simpl. rewrite IH, Pos.add_succ_r. reflexivity.
Qed.

Lemma Zpos_iter (m d : positive) :
  Z.pos (Pos.iter xO m d) = Z.pos m * 2 ^ Z.pos d.
Proof.
  induction d as [|d IH] using Pos.peano_ind.
  - simpl. lia.
  - rewrite Pos.iter_succ, Pos2Z.inj_xO, IH, Pos2Z.inj_succ, Z.pow_succ_r; lia.
Qed.

Lemma digits2_pos_lower (m : positive) :
  2 ^ (Z.pos (digits2_pos m) - 1) <= Z.pos m.
Proof.
  induction m as [m IH|m IH|]; simpl digits2_pos.
  - rewrite Pos2Z.inj_succ.
    replace (Z.succ (Z.pos (digits2_pos m)) - 1)
      with (Z.succ (Z.pos (digits2_pos m) - 1)) by lia.
    rewrite Z.pow_succ_r by lia. lia.
  - rewrite Pos2Z.inj_succ.
    replace (Z.succ (Z.pos (digits2_pos m)) - 1)
      with (Z.succ (Z.pos (digits2_pos m) - 1)) by lia.
    rewrite Z.pow_succ_r by lia. lia.
  - simpl. lia.
Qed.

Lemma binary_round_aux_exact (s : bool) (mz : positive) (ez : Z) :
  digits2_pos mz = 53%positive -> -52 <= ez <= 0 ->
  binary_round_aux f64_prec f64_emax s (Z.pos mz) ez loc_Exact
    = S754_finite s mz ez.
Proof.
  intros Hd He.
  assert (Hshr : forall l, l = loc_Exact ->
            shr_fexp f64_prec f64_emax (Z.pos mz) ez l
              = ({| shr_m := Z.pos mz; shr_r := false; shr_s := false |}, ez)).
  { intros l ->. unfold shr_fexp, fexp, emin, f64_prec, f64_emax. simpl Zdigits2.
    rewrite Hd.
    replace (Z.max (53 + ez - 53) (3 - 1024 - 53) - ez) with 0 by lia.
    reflexivity. }
  unfold binary_round_aux. rewrite (Hshr loc_Exact eq_refl). simpl.
  rewrite (Hshr loc_Exact eq_refl). simpl.
  destruct (Z.leb_spec ez (f64_emax - f64_prec)) as [_|H];
    [reflexivity | unfold f64_emax, f64_prec in H; lia].
Qed.

Lemma float64_of_int_pos (s : bool) (m : positive) :
  Z.pos m < 2 ^ 53 ->
  exists mz ez, binary_round f64_prec f64_emax s m 0 = S754_finite s mz ez /\
    -52 <= ez <= 0 /\ Z.pos mz = Z.pos m * 2 ^ (- ez).
Proof.
  intros Hm.
  pose proof (digits2_pos_lower m) as Hlow.
  assert (Hdig : Z.pos (digits2_pos m) <= 53).
  { destruct (Z.le_gt_cases (Z.pos (digits2_pos m)) 53) as [H|H]; [exact H |].
    assert (2 ^ 53 <= 2 ^ (Z.pos (digits2_pos m) - 1))
      by (apply Z.pow_le_mono_r; lia). lia. }
  unfold binary_round, shl_align, fexp, emin, f64_prec, f64_emax.
  replace (Z.max (Z.pos (digits2_pos m) + 0 - 53) (3 - 1024 - 53) - 0)
    with (Z.pos (digits2_pos m) - 53) by lia.
  replace (Z.max (Z.pos (digits2_pos m) + 0 - 53) (3 - 1024 - 53))
    with (Z.pos (digits2_pos m) - 53) by lia.
  destruct (Z.pos (digits2_pos m) - 53) as [|p|p] eqn:Hdiff; [| lia |].
  - exists m, 0. split; [| split; [lia | simpl; lia]].
    apply (binary_round_aux_exact s m 0); [| lia].
    apply Pos2Z.inj. lia.
  - exists (Pos.iter xO m p), (Z.neg p). split; [| split].
    + apply (binary_round_aux_exact s (Pos.iter xO m p) (Z.neg p)); [| lia].
      rewrite digits2_pos_iter. apply Pos2Z.inj. rewrite Pos2Z.inj_add. lia.
    + lia.
    + rewrite Zpos_iter. reflexivity.
Qed.

Lemma int_float64_roundtrip (z : Z) :
  - 2 ^ 53 < z < 2 ^ 53 -> int_of_float64 (float64_of_int z) = z.
Proof.
  intros Hz. unfold float64_of_int, binary_normalize.
  destruct z as [|m|m]; [reflexivity | |].
  - destruct (float64_of_int_pos false m) as (mz & ez & -> & He & Hmz); [lia |].
    unfold int_of_float64. rewrite Hmz.
    assert (Hmag : (if 0 <=? ez then (Z.pos m * 2 ^ (- ez)) * 2 ^ ez
                    else (Z.pos m * 2 ^ (- ez)) / 2 ^ (- ez)) = Z.pos m).
    { destruct (Z.leb_spec 0 ez).
      - replace ez with 0 by lia. simpl. lia.
      - apply Z.div_mul. apply Z.pow_nonzero; lia. }
    rewrite Hmag.
    destruct (Z.leb_spec int_min (Z.pos m)), (Z.leb_spec (Z.pos m) int_max);
      simpl; unfold int_min, int_max in *; lia.
  - destruct (float64_of_int_pos true m) as (mz & ez & -> & He & Hmz); [lia |].
    unfold int_of_float64. rewrite Hmz.
    assert (Hmag : (if 0 <=? ez then (Z.pos m * 2 ^ (- ez)) * 2 ^ ez
                    else (Z.pos m * 2 ^ (- ez)) / 2 ^ (- ez)) = Z.pos m).
    { destruct (Z.leb_spec 0 ez).
      - replace ez with 0 by lia. simpl. lia.
      - apply Z.div_mul. apply Z.pow_nonzero; lia. }
    rewrite Hmag.
    destruct (Z.leb_spec int_min (- Z.pos m)), (Z.leb_spec (- Z.pos m) int_max);
      simpl; unfold int_min, int_max in *; lia.
Qed.

(** ** The cache *)

Lemma cache_get_set (fc : featureCache) (t t' : Z) (k : string)
    (snap : FeatureStatus) :
  Cache.get (Cache.set fc t k snap) t' k =
  if t + ttl fc <? t' then None else Some snap.
Proof.
  unfold Cache.get, Cache.set. simpl. rewrite lookup_insert_eq. reflexivity.
Qed.

Lemma cache_get_set_ne (fc : featureCache) (t t' : Z) (k k' : string)
    (snap : FeatureStatus) :
  k <> k' -> Cache.get (Cache.set fc t k snap) t' k' = Cache.get fc t' k'.
Proof.
  intros Hne. unfold Cache.get, Cache.set. simpl.
  rewrite lookup_insert_ne by exact Hne. reflexivity.
Qed.

(** C8, as stated, fails at the instant of expiry: an entry stored at
    [t = 100] with a TTL of [10] is still served at [t' = 110 = t + ttl]. *)
Lemma cache_served_at_expiry_instant :
  let fc := {| data := ∅; ttl := 10 |} in
  100 + ttl fc <= 110 /\
  Cache.get (Cache.set fc 100 product_key (status_of licensed)) 110 product_key
  <> None.
Proof.
  split; [simpl; lia |]. rewrite cache_get_set. simpl. discriminate.
Qed.

(** C8 (amended): after [set(k, snap)] at time [t] on a cache of lifetime
    [ttl], [get(k)] returns [snap] at every [t'] with [t <= t' <= t + ttl],
    the instant [t + ttl] included, and is absent at every [t' > t + ttl]. *)
Theorem cache_freshness (fc : featureCache) (k : string)
    (snap : FeatureStatus) (t t' : Z) :
  (t <= t' <= t + ttl fc ->
   Cache.get (Cache.set fc t k snap) t' k = Some snap) /\
  (t + ttl fc < t' ->
   Cache.get (Cache.set fc t k snap) t' k = None).
Proof.
  rewrite cache_get_set. split; intros H.
  - destruct (Z.ltb_spec (t + ttl fc) t'); [lia | reflexivity].
  - destruct (Z.ltb_spec (t + ttl fc) t'); [reflexivity | lia].
Qed.

Lemma cache_freshness_witness :
  Cache.get (Cache.set demo_cache 100 product_key (status_of licensed))
    (100 + 10 * second) product_key = Some (status_of licensed) /\
  Cache.get (Cache.set demo_cache 100 product_key (status_of licensed))
    (101 + 10 * second) product_key = None.
Proof.
  split.
  - apply (cache_freshness demo_cache product_key (status_of licensed) 100
             (100 + 10 * second)).
    vm_compute. split; discriminate.
  - apply (cache_freshness demo_cache product_key (status_of licensed) 100
             (101 + 10 * second)).
    reflexivity.
Defined.

(** ** Fetch-or-refresh *)

Lemma CheckFeature_hit (st : State) (k : string) (s : FeatureStatus) :
  Cache.get (cache (client st)) (now st) k = Some s ->
  CheckFeature k st = (inl s, st).
Proof. intros H. unfold CheckFeature. rewrite H. reflexivity. Qed.

(** On a miss answered with a body, the entry is stored once the answer is
    there, at [now + wait]. *)
Lemma CheckFeature_miss (st : State) (k : string) (wait : Z)
    (result : checkResult) :
  Cache.get (cache (client st)) (now st) k = None ->
  on_check (authority st) (length (queries st)) k = (wait, inr result) ->
  CheckFeature k st =
  (inl (status_of result),
   {| now := now st + wait;
      client :=
        with_cache
          (Cache.set (cache (client st)) (now st + wait) k (status_of result))
          (client st);
      concurrencyState := concurrencyState st;
      authority := authority st;
      queries := queries st ++ [k];
      reports := reports st |}).
Proof.
  intros Hget Hans. unfold CheckFeature, queryFeature.
  rewrite Hget, Hans. reflexivity.
Qed.

Lemma CheckFeature_miss_error (st : State) (k : string) (wait : Z)
    (err : error) :
  Cache.get (cache (client st)) (now st) k = None ->
  on_check (authority st) (length (queries st)) k = (wait, inl err) ->
  CheckFeature k st =
  (inr err,
   {| now := now st + wait; client := client st;
      concurrencyState := concurrencyState st; authority := authority st;
      queries := queries st ++ [k]; reports := reports st |}).
Proof.
  intros Hget Hans. unfold CheckFeature, queryFeature.
  rewrite Hget, Hans. reflexivity.
Qed.

(** What a fetch leaves alone: the ledger, the usage reports, the tracker,
    the helpers and the identity. *)
Lemma CheckFeature_frame (st st1 : State) (k : string)
    (r : FeatureStatus + error) :
  CheckFeature k st = (r, st1) ->
  concurrencyState st1 = concurrencyState st /\
  reports st1 = reports st /\
  authority st1 = authority st /\
  c_tpsTracker (client st1) = c_tpsTracker (client st) /\
  helpers (client st1) = helpers (client st) /\
  instanceID (client st1) = instanceID (client st).
Proof.
  unfold CheckFeature, queryFeature.
  destruct (Cache.get _ _ _) as [s|].
  - intros [= <- <-]. repeat split.
  - destruct (on_check _ _ _) as [wait [err|result]];
      intros [= <- <-]; repeat split.
Qed.

(** C5, as stated, fails: the authority suggests a cache lifetime of 30 and
    the client is configured with 10 seconds; the entry made from that answer
    expires 10 seconds after it was stored and is gone at 20 seconds. *)
Lemma server_cache_ttl_is_not_used :
  let st1 := snd (CheckFeature product_key (fresh (always licensed))) in
  r_CacheTTL licensed = 30 /\
  expiresAt <$> (data (cache (client st1)) !! product_key)
    = Some (10 * second) /\
  Cache.get (cache (client st1)) (20 * second) product_key = None.
Proof. vm_compute. repeat split. Qed.

(** C5 (amended): the entry created from an answer of the authority always
    expires [ttl] after it was stored, [ttl] being the lifetime the client
    was configured with; the [cache_ttl] of the answer is decoded and not
    used. *)
Theorem cache_entry_uses_configured_ttl (st : State) (k : string) (wait : Z)
    (result : checkResult) :
  Cache.get (cache (client st)) (now st) k = None ->
  on_check (authority st) (length (queries st)) k = (wait, inr result) ->
  let '(r, st1) := CheckFeature k st in
  r = inl (status_of result) /\
  data (cache (client st1)) !! k =
    Some {| status := status_of result;
            expiresAt := now st1 + ttl (cache (client st)) |} /\
  ttl (cache (client st1)) = ttl (cache (client st)).
Proof.
  intros Hget Hans. rewrite (CheckFeature_miss st k wait result Hget Hans).
  simpl. rewrite lookup_insert_eq. repeat split.
Qed.

Lemma cache_entry_uses_configured_ttl_witness :
  let '(r, st1) := CheckFeature product_key (fresh (always licensed)) in
  r = inl (status_of licensed) /\
  data (cache (client st1)) !! product_key =
    Some {| status := status_of licensed;
            expiresAt := now st1 + ttl (cache (client (fresh (always licensed)))) |} /\
  ttl (cache (client st1)) = ttl (cache (client (fresh (always licensed)))).
Proof.
  apply (cache_entry_uses_configured_ttl
           (fresh (always licensed)) product_key 0 licensed);
    reflexivity.
Defined.

(** ** CheckCapacity *)

(** C4: without a configured capacity ([max_capacity] zero or unset, or
    negative) every [CheckCapacity x] is denied, [x = 0] included; with a
    positive capacity it admits exactly when [x < maxCapacity]. *)
Theorem CheckCapacity_fail_closed_and_strict (st st1 : State) (x : Z)
    (s : FeatureStatus) :
  checkProductLimits st = (inl s, st1) ->
  let '((allowed, _, _), _) := CheckCapacity x st in
  (MaxCapacity s <= 0 -> allowed = false) /\
  (0 < MaxCapacity s -> (allowed = true <-> x < MaxCapacity s)).
Proof.
  intros Hs. unfold CheckCapacity. rewrite Hs.
  destruct (Z.leb_spec (MaxCapacity s) 0) as [H0|H0].
  - split; [reflexivity | lia].
  - destruct (Z.leb_spec (MaxCapacity s) x) as [Hx|Hx].
    + split; [lia |]. intros _. split; [discriminate | lia].
    + split; [lia |]. intros _. split; [lia | reflexivity].
Qed.

Lemma CheckCapacity_fail_closed_and_strict_witness :
  let '((allowed, _, _), _) := CheckCapacity 499 (fresh (always licensed)) in
  allowed = true <-> 499 < 500.
Proof.
  apply (CheckCapacity_fail_closed_and_strict
           (fresh (always licensed))
           (snd (checkProductLimits (fresh (always licensed)))) 499
           (status_of licensed)).
  - reflexivity.
  - reflexivity.
Defined.

(** ** Limit-exceeded outcomes *)

(** C2, as stated, fails: against a snapshot that denies admission with
    reason "quota_exceeded" and no quota block, [Consume 1] returns
    [(false, 0, err)] with [err] the error "quota exceeded: quota_exceeded",
    not [nil]. *)
Lemma Consume_denial_returns_error :
  fst (Consume 1 (fresh (always exhausted)))
    = (false, 0, Some (ErrQuotaExceeded "quota_exceeded")) /\
  fst (Consume 1 (fresh (always exhausted))) <> (false, 0, None).
Proof. split; [reflexivity | discriminate]. Qed.

(** C2 (amended): for each of the four primitives a limit-exceeded outcome
    is returned as [allowed = false] together with a non-nil error that
    carries the reason: the snapshot's reason string for an exhausted quota,
    the compared values for capacity, rate and concurrency.  The state is the
    one the fetch left: no usage report, no change of the ledger. *)
Theorem limit_exceeded_is_denial_with_error :
  (forall st st1 s amount,
     checkProductLimits (recordTPS st) = (inl s, st1) ->
     Enabled s = false ->
     Consume amount st =
       ((false, match Quota s with Some q => Remaining q | None => 0 end,
         Some (ErrQuotaExceeded (Reason s))), st1)) /\
  (forall st st1 s x,
     checkProductLimits st = (inl s, st1) ->
     0 < MaxCapacity s -> MaxCapacity s <= x ->
     CheckCapacity x st =
       ((false, MaxCapacity s,
         Some (ErrCapacityExceeded x (MaxCapacity s))), st1)) /\
  (forall st st1 s,
     checkProductLimits st = (inl s, st1) ->
     f64_le (MaxTPS s) f64_zero = false ->
     f64_gt (getCurrentTPS st) (MaxTPS s) = true ->
     CheckTPS st =
       ((false, MaxTPS s,
         Some (ErrTPSExceeded (getCurrentTPS st) (MaxTPS s))), st1)) /\
  (forall st st1 s,
     checkProductLimits st = (inl s, st1) ->
     0 < MaxConcurrency s ->
     MaxConcurrency s
       <= ledger_count (slot_key (client st1)) (concurrencyState st1) ->
     AcquireSlot st =
       ((noop_func, false,
         Some (ErrConcurrencyExceeded
                 (ledger_count (slot_key (client st1)) (concurrencyState st1))
                 (MaxConcurrency s))), st1)).
Proof.
  repeat split.
  - intros st st1 s amount Hs Hen. unfold Consume. rewrite Hs, Hen.
    reflexivity.
  - intros st st1 s x Hs Hpos Hx. unfold CheckCapacity. rewrite Hs.
    destruct (Z.leb_spec (MaxCapacity s) 0); [lia |].
    destruct (Z.leb_spec (MaxCapacity s) x); [reflexivity | lia].
  - intros st st1 s Hs Hle Hgt. unfold CheckTPS. rewrite Hs, Hle, Hgt.
    reflexivity.
  - intros st st1 s Hs Hpos Hfull. unfold AcquireSlot. rewrite Hs.
    destruct (Z.leb_spec (MaxConcurrency s) 0); [lia |].
    destruct (Z.leb_spec (MaxConcurrency s)
                (ledger_count (slot_key (client st1)) (concurrencyState st1)));
      [reflexivity | lia].
Qed.

Lemma limit_exceeded_is_denial_with_error_witness :
  fst (Consume 1 (fresh (always exhausted)))
    = (false, 0, Some (ErrQuotaExceeded "quota_exceeded")) /\
  fst (CheckCapacity 500 (fresh (always licensed)))
    = (false, 500, Some (ErrCapacityExceeded 500 500)).
Proof.
  destruct limit_exceeded_is_denial_with_error as (HQ & HC & _ & _).
  split.
  - rewrite (HQ (fresh (always exhausted))
               (snd (checkProductLimits (recordTPS (fresh (always exhausted)))))
               (status_of exhausted) 1); reflexivity.
  - rewrite (HC (fresh (always licensed))
               (snd (checkProductLimits (fresh (always licensed))))
               (status_of licensed) 500);
      [reflexivity | reflexivity | reflexivity | vm_compute; discriminate].
Defined.

(** ** Consume *)

Lemma recordTPS_frame (st : State) :
  reports (recordTPS st) = reports st /\
  concurrencyState (recordTPS st) = concurrencyState st /\
  queries (recordTPS st) = queries st /\
  now (recordTPS st) = now st /\
  cache (client (recordTPS st)) = cache (client st).
Proof.
  unfold recordTPS. destruct (c_tpsTracker (client st)); repeat split.
Qed.

(** The clamp of [Consume] is a maximum with zero. *)
Lemma clamp_is_max (r : Z) : (if r <? 0 then 0 else r) = Z.max 0 r.
Proof. destruct (Z.ltb_spec r 0); lia. Qed.

(** C6, as stated, fails at both ends of the [int] range.  Against a
    snapshot with 10 units remaining, [Consume (2^53 + 1)] is admitted and
    the usage report it sends is for [2^53], the amount as [float64] holds
    it; and [Consume (- 2^63 + 5)] is admitted with remaining 0, the
    difference [10 - amount] having wrapped around, where
    [max(0, remaining - amount)] is [2^63 + 5]. *)
Lemma Consume_reports_rounded_amount :
  let st := fresh (always ten_left) in
  (let amount := 2 ^ 53 + 1 in
   is_int amount /\
   fst (Consume amount st) = (true, 0, None) /\
   reports (snd (Consume amount st)) = [(product_key, 2 ^ 53)] /\
   reports (snd (Consume amount st)) <> reports st ++ [(product_key, amount)]) /\
  (let amount := - 2 ^ 63 + 5 in
   is_int amount /\
   (forall q, Quota (status_of ten_left) = Some q -> Remaining q = 10) /\
   fst (Consume amount st) = (true, 0, None) /\
   Z.max 0 (10 - amount) <> 0).
Proof.
  split.
  - vm_compute. repeat split; try discriminate.
  - split; [vm_compute; split; discriminate |].
    split; [intros q [= <-]; reflexivity |].
    split; [vm_compute; reflexivity | vm_compute; discriminate].
Qed.

(** C6 (amended): when [Consume amount] admits, exactly one usage report was
    sent, for the product key and with the count [int(float64(amount))],
    which is [amount] for every amount of magnitude below [2^53]; with a
    quota block in the snapshot the returned remaining is
    [max(0, remaining - amount)], the difference being Go's (it is the
    mathematical one whenever that fits an [int], as it does for
    non-negative operands).  When the snapshot denies admission, no usage
    report is sent. *)
Theorem Consume_arithmetic_and_reporting (st st1 st2 : State) (amount : Z)
    (s : FeatureStatus) (allowed : bool) (remaining : Z)
    (err : option error) :
  checkProductLimits (recordTPS st) = (inl s, st1) ->
  Consume amount st = ((allowed, remaining, err), st2) ->
  (Enabled s = false -> allowed = false /\ reports st2 = reports st) /\
  (Enabled s = true ->
   reports st2 =
     reports st ++ [(product_key, int_of_float64 (float64_of_int amount))] /\
   (- 2 ^ 53 < amount < 2 ^ 53 ->
    reports st2 = reports st ++ [(product_key, amount)])) /\
  (allowed = true ->
   Enabled s = true /\ err = None /\
   forall q, Quota s = Some q ->
     remaining = Z.max 0 (wrap_int (Remaining q - amount)) /\
     (is_int (Remaining q - amount) ->
      remaining = Z.max 0 (Remaining q - amount))).
Proof.
  intros Hs.
  destruct (CheckFeature_frame _ _ _ _ Hs) as (_ & Hrep & _).
  destruct (recordTPS_frame st) as (Hrep0 & _).
  unfold Consume. rewrite Hs.
  destruct (Enabled s) eqn:Hen; simpl.
  - unfold reportProductUsage, ReportUsage.
    destruct (on_usage _ _ _ _) as [wait [e|]]; simpl;
      intros [= <- <- <- <-]; simpl;
      (split; [discriminate |]);
      (split;
       [intros _; split;
        [congruence
        |intros Hexact; rewrite (int_float64_roundtrip amount Hexact);
         congruence] |]).
    + discriminate.
    + intros _. split; [reflexivity |]. split; [reflexivity |].
      intros q Hq. rewrite Hq, clamp_is_max. split; [reflexivity |].
      intros Hfit. rewrite wrap_int_id by exact Hfit. reflexivity.
  - intros [= <- <- <- <-].
    split; [intros _; split; [reflexivity | congruence] |].
    split; discriminate.
Qed.

Lemma Consume_arithmetic_and_reporting_witness :
  let st := fresh (always ten_left) in
  fst (Consume 3 st) = (true, 7, None) /\
  reports (snd (Consume 3 st)) = reports st ++ [(product_key, 3)] /\
  forall q, Quota (status_of ten_left) = Some q ->
    7 = Z.max 0 (Remaining q - 3).
Proof.
  intros st.
  destruct (Consume_arithmetic_and_reporting st
              (snd (checkProductLimits (recordTPS st)))
              (snd (Consume 3 st)) 3 (status_of ten_left) true 7 None)
    as (_ & Hreport & Hadmit).
  - reflexivity.
  - reflexivity.
  - split; [reflexivity |]. split.
    + apply Hreport; [reflexivity | vm_compute; split; reflexivity].
    + intros q Hq.
      destruct Hadmit as (_ & _ & Hrem); [reflexivity |].
      apply (Hrem q Hq). injection Hq as <-.
      apply is_int_small. vm_compute. split; discriminate.
Defined.

(** ** CheckTPS *)

Lemma SFcompare_antisym (a b : float64) :
  SFcompare b a = option_map CompOpp (SFcompare a b).
Proof.
  destruct a as [sa|sa| |sa ma ea], b as [sb|sb| |sb mb eb]; simpl;
    try reflexivity;
    try (destruct sa; reflexivity);
    try (destruct sb; reflexivity);
    try (destruct sa, sb; reflexivity).
  assert (Hm : Pos.compare_cont Eq mb ma = CompOpp (Pos.compare_cont Eq ma mb))
    by (symmetry; apply (Pos.compare_cont_antisym ma mb Eq)).
  f_equal. rewrite (Z.compare_antisym ea eb), Hm.
  destruct sa, sb; try reflexivity;
    destruct (ea ?= eb)%Z; simpl; try reflexivity;
    destruct (Pos.compare_cont Eq ma mb); reflexivity.
Qed.

(** Away from NaN, [a > b] is the negation of [a <= b]. *)
Lemma f64_gt_not_le (a b : float64) :
  f64_is_nan a = false -> f64_is_nan b = false ->
  f64_gt a b = negb (f64_le a b).
Proof.
  intros Ha Hb. unfold f64_gt, f64_le, SFltb, SFleb.
  rewrite (SFcompare_antisym a b).
  destruct (SFcompare a b) as [[| |]|] eqn:Hc; simpl; try reflexivity.
  destruct a, b; simpl in *; try discriminate;
    repeat match goal with
           | s : bool |- _ => destruct s; simpl in *; try discriminate
           end.
Qed.

(** Any comparison with a NaN is false. *)
Lemma f64_gt_nan_l (b : float64) : f64_gt S754_nan b = false.
Proof. destruct b; reflexivity. Qed.

(** C7, as stated, fails when the provider reports NaN: with a limit of 100
    configured, NaN is not less than or equal to the limit, and [CheckTPS]
    admits. *)
Lemma CheckTPS_admits_nan_rate :
  let st := snd (RegisterHelpers (Some nan_helpers) (fresh (always licensed))) in
  f64_le (MaxTPS (status_of licensed)) f64_zero = false /\
  f64_le (getCurrentTPS st) (MaxTPS (status_of licensed)) = false /\
  fst (CheckTPS st) = (true, MaxTPS (status_of licensed), None).
Proof. vm_compute. repeat split. Qed.

(** C7 (amended): without a configured rate limit ([max_tps] zero, unset or
    negative) [CheckTPS] admits, returning the rate 0; with a positive limit
    it admits exactly when the current rate is not greater than the limit,
    which for a rate and a limit that are numbers is [currentRate <= limit]
    (a NaN rate is admitted); on denial it returns the configured limit. *)
Theorem CheckTPS_rate_rule (st st1 : State) (s : FeatureStatus) :
  checkProductLimits st = (inl s, st1) ->
  let '((allowed, maxTPS, _), _) := CheckTPS st in
  (f64_le (MaxTPS s) f64_zero = true ->
   allowed = true /\ maxTPS = f64_zero) /\
  (f64_le (MaxTPS s) f64_zero = false ->
   allowed = negb (f64_gt (getCurrentTPS st) (MaxTPS s)) /\
   maxTPS = MaxTPS s /\
   (f64_is_nan (getCurrentTPS st) = false ->
    f64_is_nan (MaxTPS s) = false ->
    allowed = f64_le (getCurrentTPS st) (MaxTPS s))).
Proof.
  intros Hs. unfold CheckTPS. rewrite Hs.
  destruct (f64_le (MaxTPS s) f64_zero) eqn:Hzero; cbv beta iota zeta.
  - split; [intros _; split; reflexivity | discriminate].
  - destruct (f64_gt (getCurrentTPS st) (MaxTPS s)) eqn:Hgt;
      cbv beta iota zeta;
      (split; [discriminate |]); intros _;
      (split; [reflexivity |]); (split; [reflexivity |]);
      intros Hc Hm; rewrite (f64_gt_not_le _ _ Hc Hm) in Hgt;
      destruct (f64_le (getCurrentTPS st) (MaxTPS s));
      simpl in Hgt; congruence.
Qed.

Lemma CheckTPS_rate_rule_witness :
  let st := fresh (always licensed) in
  let '((allowed, maxTPS, _), _) := CheckTPS st in
  allowed = negb (f64_gt (getCurrentTPS st) (float64_of_int 100)) /\
  maxTPS = float64_of_int 100 /\
  allowed = f64_le (getCurrentTPS st) (float64_of_int 100).
Proof.
  intros st.
  pose proof (CheckTPS_rate_rule st (snd (checkProductLimits st))
                (status_of licensed) eq_refl) as H.
  destruct (CheckTPS st) as [[[allowed maxTPS] err] st1].
  destruct H as [_ H]. destruct (H eq_refl) as (Hgt & Hmax & Hle).
  split; [exact Hgt |]. split; [exact Hmax |].
  apply Hle; reflexivity.
Defined.

(** ** The concurrency ledger *)

Lemma ledger_count_insert (key : string) (v : Z) (m : gmap string Z) :
  ledger_count key (<[key := v]> m) = v.
Proof. unfold ledger_count. rewrite lookup_insert_eq. reflexivity. Qed.

Lemma ledger_count_delete (key : string) (m : gmap string Z) :
  ledger_count key (delete key m) = 0.
Proof. unfold ledger_count. rewrite lookup_delete_eq. reflexivity. Qed.

(** One run of the release closure takes one off the count and stops at
    zero, where the entry is deleted. *)
Lemma release_body_count (key : string) (m : gmap string Z) :
  is_int (ledger_count key m) ->
  ledger_count key (release_body key m) = Z.max 0 (ledger_count key m - 1) /\
  (ledger_count key m <= 1 -> release_body key m !! key = None).
Proof.
  intros Hint. unfold release_body.
  destruct (Z.leb_spec (ledger_count key m) 1) as [H|H].
  - rewrite ledger_count_delete. split; [lia |].
    intros _. apply lookup_delete_eq.
  - rewrite ledger_count_insert. split; [| lia].
    rewrite wrap_int_id; [lia |].
    unfold is_int, int_min, int_max in *. lia.
Qed.

Lemma call_times_noop (n : nat) (st : State) :
  call_times n noop_func st = Some st.
Proof. induction n as [|n IH]; simpl; [reflexivity | exact IH]. Qed.

Lemma call_times_release (key : string) (n : nat) (st : State) :
  is_int (ledger_count key (concurrencyState st)) ->
  0 <= ledger_count key (concurrencyState st) ->
  exists st', call_times n (release_slot key) st = Some st' /\
    ledger_count key (concurrencyState st')
      = Z.max 0 (ledger_count key (concurrencyState st) - Z.of_nat n) /\
    ((0 < n)%nat ->
     ledger_count key (concurrencyState st) - Z.of_nat n <= 0 ->
     concurrencyState st' !! key = None).
Proof.
  revert st. induction n as [|n IH]; intros st Hint Hpos.
  - exists st. simpl. split; [reflexivity |]. split; lia.
  - simpl call_times.
    destruct (release_body_count key (concurrencyState st) Hint) as [Hc Hdel].
    set (st1 := with_ledger (release_body key (concurrencyState st)) st).
    assert (Hc1 : ledger_count key (concurrencyState st1)
                  = Z.max 0 (ledger_count key (concurrencyState st) - 1))
      by exact Hc.
    destruct (IH st1) as (st' & Hrun & Hcount & Hnone).
    + rewrite Hc1. unfold is_int, int_min, int_max in *. lia.
    + rewrite Hc1. lia.
    + exists st'. split; [exact Hrun |]. split.
      * rewrite Hcount, Hc1. lia.
      * intros _ Hneg. destruct n as [|n].
        -- simpl in Hrun. injection Hrun as <-. apply Hdel. lia.
        -- apply Hnone; [lia |]. rewrite Hc1. lia.
Qed.

(** C3, as stated, fails: with [max_concurrency = 2], a first caller holds a
    slot (count 1) when a second one acquires (count 2); the second caller's
    release invoked twice leaves the count at 0, not at the 1 it was before
    that acquisition. *)
Lemma double_release_frees_another_slot :
  let key := slot_key demo_client in
  let '((_, allowed1, _), st1) := AcquireSlot (fresh (always licensed)) in
  let '((release2, allowed2, _), st2) := AcquireSlot st1 in
  allowed1 = true /\ allowed2 = true /\
  ledger_count key (concurrencyState st1) = 1 /\
  ledger_count key (concurrencyState st2) = 2 /\
  (ledger_count key ∘ concurrencyState) <$> call_times 2 release2 st2
    = Some 0.
Proof. vm_compute. repeat split. Qed.

(** C3 (amended): a successful [AcquireSlot] raises the count of its key by
    one, and every invocation of the returned release takes one off the
    count of that key, stopping at zero, where the entry is removed: after
    [n >= 1] invocations the count is [max(0, before + 1 - n)].  The count
    never goes negative; after one invocation it is back at the
    (non-negative) count before the acquisition, and after two it is
    [max(0, before - 1)]. *)
Theorem release_decrements_per_call (st st1 st2 : State) (s : FeatureStatus)
    (release : ReleaseFunc) (err : option error) :
  checkProductLimits st = (inl s, st1) ->
  is_int (MaxConcurrency s) ->
  let key := slot_key (client st) in
  let before := ledger_count key (concurrencyState st) in
  is_int before ->
  AcquireSlot st = ((release, true, err), st2) ->
  ledger_count key (concurrencyState st2) = before + 1 /\
  forall n : nat, (1 <= n)%nat ->
    exists st3, call_times n release st2 = Some st3 /\
      ledger_count key (concurrencyState st3)
        = Z.max 0 (before + 1 - Z.of_nat n) /\
      0 <= ledger_count key (concurrencyState st3) /\
      (before + 1 - Z.of_nat n <= 0 -> concurrencyState st3 !! key = None).
Proof.
  intros Hs Hmax key before Hbefore.
  destruct (CheckFeature_frame _ _ _ _ Hs) as (Hled & _ & _ & _ & _ & Hid).
  unfold AcquireSlot. rewrite Hs.
  assert (Hkey : slot_key (client st1) = key)
    by (unfold key, slot_key; rewrite Hid; reflexivity).
  rewrite Hkey, Hled. fold before.
  destruct (Z.leb_spec (MaxConcurrency s) 0) as [H0|H0];
    [intros [=] |].
  destruct (Z.leb_spec (MaxConcurrency s) before) as [Hfull|Hfree];
    [intros [=] |].
  assert (Hwrap : wrap_int (before + 1) = before + 1)
    by (apply wrap_int_id; unfold is_int, int_min, int_max in *; lia).
  rewrite Hwrap. intros [= <- <- <-].
  set (stA := with_ledger (<[key:=before + 1]> (concurrencyState st)) st1).
  assert (HcA : ledger_count key (concurrencyState stA) = before + 1)
    by apply ledger_count_insert.
  split; [exact HcA |].
  intros [|n] Hn; [lia |]. simpl call_times.
  assert (HintA : is_int (ledger_count key (concurrencyState stA)))
    by (rewrite HcA; unfold is_int, int_min, int_max in *; lia).
  destruct (release_body_count key (concurrencyState stA) HintA) as [Hc Hdel].
  set (stB := with_ledger (release_body key (concurrencyState stA)) stA).
  assert (HcB : ledger_count key (concurrencyState stB) = Z.max 0 before)
    by (change (ledger_count key (release_body key (concurrencyState stA))
                = Z.max 0 before); rewrite Hc, HcA; f_equal; lia).
  destruct (call_times_release key n stB) as (st3 & Hrun & Hcount & Hnone).
  - rewrite HcB. unfold is_int, int_min, int_max in *. lia.
  - rewrite HcB. lia.
  - exists st3. split; [exact Hrun |]. rewrite Hcount, HcB.
    split; [lia |]. split; [lia |].
    intros Hle. destruct n as [|n].
    + simpl in Hrun. injection Hrun as <-. apply Hdel. rewrite HcA. lia.
    + apply Hnone; [lia |]. rewrite HcB. lia.
Qed.

Lemma release_decrements_per_call_witness :
  let st := fresh (always licensed) in
  let key := slot_key (client st) in
  let st2 := snd (AcquireSlot st) in
  ledger_count key (concurrencyState st2) = 0 + 1 /\
  forall n : nat, (1 <= n)%nat ->
    exists st3, call_times n (release_slot key) st2 = Some st3 /\
      ledger_count key (concurrencyState st3) = Z.max 0 (0 + 1 - Z.of_nat n) /\
      0 <= ledger_count key (concurrencyState st3) /\
      (0 + 1 - Z.of_nat n <= 0 -> concurrencyState st3 !! key = None).
Proof.
  intros st key st2.
  apply (release_decrements_per_call st (snd (checkProductLimits st)) st2
           (status_of licensed) (release_slot key) None).
  - reflexivity.
  - apply is_int_small. vm_compute. split; discriminate.
  - apply is_int_small. vm_compute. split; discriminate.
  - reflexivity.
Defined.

(** C10: an [AcquireSlot] that denies or fails returns a release function
    that is not [nil] and leaves the ledger as it was; the returned function
    may be invoked any number of times, in any later state, and each time
    returns with the ledger, and the rest of the state, unchanged. *)
Theorem denied_release_is_a_noop (st st1 : State) (release : ReleaseFunc)
    (allowed : bool) (err : option error) :
  AcquireSlot st = ((release, allowed, err), st1) ->
  allowed = false \/ err <> None ->
  release <> nil_func /\
  concurrencyState st1 = concurrencyState st /\
  forall (n : nat) (st' : State), call_times n release st' = Some st'.
Proof.
  unfold AcquireSlot.
  destruct (checkProductLimits st) as [[s|e] stq] eqn:Hs;
    destruct (CheckFeature_frame _ _ _ _ Hs) as (Hled & _).
  - destruct (MaxConcurrency s <=? 0);
      [| destruct (MaxConcurrency s <=? _)].
    + intros [= <- <- <- <-] _. split; [discriminate |].
      split; [exact Hled |]. intros n st'. apply call_times_noop.
    + intros [= <- <- <- <-] _. split; [discriminate |].
      split; [exact Hled |]. intros n st'. apply call_times_noop.
    + intros [= <- <- <- <-] [Hden|Herr]; [discriminate | congruence].
  - intros [= <- <- <- <-] _. split; [discriminate |].
    split; [exact Hled |]. intros n st'. apply call_times_noop.
Qed.

Lemma denied_release_is_a_noop_witness :
  fst (AcquireSlot two_held)
    = (noop_func, false, Some (ErrConcurrencyExceeded 2 2)) /\
  concurrencyState (snd (AcquireSlot two_held)) = concurrencyState two_held /\
  call_times 3 noop_func two_held = Some two_held.
Proof.
  split; [reflexivity |].
  destruct (denied_release_is_a_noop two_held (snd (AcquireSlot two_held))
              noop_func false (Some (ErrConcurrencyExceeded 2 2)))
    as (_ & Hled & Hcall).
  - reflexivity.
  - left. reflexivity.
  - split; [exact Hled | exact (Hcall 3%nat two_held)].
Defined.

(** ** The sliding-window tracker *)

Section Tracker.

Variable cutoff : Z.

(** On requests in the order of the clock, one of which is after the cutoff,
    the loop finds the first one that is, and what follows it is what is
    after the cutoff. *)
Lemma firstValidIdx_sorted (reqs : list Z) (i : nat) :
  StronglySorted Z.le reqs ->
  Exists (fun req => cutoff < req) reqs ->
  (i <= firstValidIdx cutoff i reqs)%nat /\
  drop (firstValidIdx cutoff i reqs - i) reqs
    = List.filter (fun req => cutoff <? req) reqs.
Proof.
  revert i. induction reqs as [|req rest IH]; intros i Hs Hex.
  - inversion Hex.
  - apply StronglySorted_cons in Hs as [Hall Hrest]. simpl.
    destruct (Z.ltb_spec cutoff req) as [Hlt|Hge].
    + split; [lia |]. rewrite Nat.sub_diag. simpl. f_equal.
      symmetry. apply forallb_filter_id. apply forallb_forall.
      intros x Hx. rewrite Forall_forall in Hall.
      apply list_elem_of_In in Hx. specialize (Hall x Hx).
      apply Z.ltb_lt. lia.
    + assert (Hex' : Exists (fun r => cutoff < r) rest)
        by (inversion Hex; subst; [lia | assumption]).
      destruct (IH (S i) Hrest Hex') as [Hle Hdrop].
      split; [lia |].
      replace (firstValidIdx cutoff (S i) rest - i)%nat
        with (S (firstValidIdx cutoff (S i) rest - S i)) by lia.
      exact Hdrop.
Qed.

Lemma countAfter_filter (reqs : list Z) :
  countAfter cutoff reqs
    = Z.of_nat (length (List.filter (fun req => cutoff <? req) reqs)).
Proof.
  induction reqs as [|req rest IH]; simpl; [reflexivity |].
  destruct (cutoff <? req); simpl length; lia.
Qed.

End Tracker.

Lemma RecordRequest_sorted (now : Z) (t : tpsTracker) :
  0 < window t ->
  StronglySorted Z.le (requests t ++ [now]) ->
  requests (RecordRequest now t)
    = List.filter (fun req => now - window t <? req) (requests t ++ [now]).
Proof.
  intros Hw Hs. unfold RecordRequest. simpl requests.
  destruct (firstValidIdx_sorted (now - window t) (requests t ++ [now]) 0 Hs)
    as [_ Hdrop].
  - apply Exists_exists. exists now. split; [| lia].
    apply list_elem_of_In, in_or_app. right. left. reflexivity.
  - rewrite Nat.sub_0_r in Hdrop. rewrite <- Hdrop.
    destruct (firstValidIdx (now - window t) 0 (requests t ++ [now]));
      reflexivity.
Qed.

Lemma record_all_snoc (ts : list Z) (now : Z) (t : tpsTracker) :
  record_all (ts ++ [now]) t = RecordRequest now (record_all ts t).
Proof. unfold record_all. rewrite fold_left_app. reflexivity. Qed.

Lemma filter_filter_cutoff (c c' : Z) (l : list Z) :
  c <= c' ->
  List.filter (fun r => c' <? r) (List.filter (fun r => c <? r) l)
    = List.filter (fun r => c' <? r) l.
Proof.
  intros Hc. induction l as [|x l IH]; simpl; [reflexivity |].
  destruct (Z.ltb_spec c x) as [H|H]; simpl.
  - rewrite IH. reflexivity.
  - destruct (Z.ltb_spec c' x); [lia | exact IH].
Qed.

(** After the clock readings [ts ++ [now]], recorded in order on a new
    tracker, the tracker retains exactly the readings that are after
    [now - window]. *)
Lemma record_all_requests (ts : list Z) (now : Z) :
  StronglySorted Z.le (ts ++ [now]) ->
  window (record_all (ts ++ [now]) newTPSTracker) = second /\
  requests (record_all (ts ++ [now]) newTPSTracker)
    = List.filter (fun req => now - second <? req) (ts ++ [now]).
Proof.
  revert now. induction ts as [|prev ts IH] using rev_ind; intros now Hs.
  - split; [reflexivity |]. simpl.
    unfold record_all, RecordRequest. simpl.
    destruct (Z.ltb_spec (now - second) now) as [_|H];
      [reflexivity | unfold second in H; lia].
  - rewrite record_all_snoc.
    pose proof (StronglySorted_app_1_l _ _ _ Hs) as Hs1.
    destruct (IH prev Hs1) as [Hw Hreq].
    assert (Hle : prev <= now).
    { eapply (StronglySorted_app_1_elem_of _ _ _ _ _ Hs);
        [apply elem_of_app; right|]; apply list_elem_of_singleton; reflexivity. }
    assert (Hnow : (prev - second <? now) = true)
      by (apply Z.ltb_lt; unfold second; lia).
    assert (Hreq' :
      requests (record_all (ts ++ [prev]) newTPSTracker) ++ [now]
        = List.filter (fun req => prev - second <? req)
            ((ts ++ [prev]) ++ [now])).
    { rewrite Hreq, (List.filter_app _ (ts ++ [prev]) [now]). simpl.
      rewrite Hnow. reflexivity. }
    split; [exact Hw |].
    rewrite RecordRequest_sorted.
    + rewrite Hw, Hreq'. apply filter_filter_cutoff. lia.
    + rewrite Hw. unfold second. lia.
    + rewrite Hreq'. clear -Hs.
      induction ((ts ++ [prev]) ++ [now]) as [|x l IHl]; simpl;
        [constructor |].
      apply StronglySorted_cons in Hs as [Hall Hl].
      destruct (prev - second <? x); [| exact (IHl Hl)].
      apply StronglySorted_cons. split; [| exact (IHl Hl)].
      rewrite Forall_forall in *. intros y Hy.
      apply Hall. apply list_elem_of_In in Hy.
      apply list_elem_of_In. apply List.filter_In in Hy. tauto.
Qed.

Lemma StronglySorted_lt_le (l : list Z) :
  StronglySorted Z.lt l -> StronglySorted Z.le l.
Proof.
  induction 1 as [|x l Hl IH Hall]; constructor; [exact IH |].
  eapply Forall_impl; [exact Hall |]. intros y Hy. simpl in Hy. lia.
Qed.

(** C9, as stated, fails at the old end of the window, which is open: two
    events exactly one second apart, [t1 = 0] and [t2 = 1 s], lie within a
    1-second span and within [[t2 - window, t2]], and the rate read at [t2]
    is 1 and not 2. *)
Lemma rate_window_edge :
  let ts := [0; second] in
  StronglySorted Z.lt ts /\
  Forall (fun t => second - second <= t <= second) ts /\
  getCurrentRate second (record_all ts newTPSTracker) = float64_of_int 1 /\
  getCurrentRate second (record_all ts newTPSTracker)
    <> float64_of_int (Z.of_nat (length ts)).
Proof.
  split; [repeat constructor |].
  split; [repeat constructor; vm_compute; discriminate |].
  split; [reflexivity | vm_compute; discriminate].
Qed.

(** C9 (amended): with the 1-second window of [newTPSTracker]:
    - events recorded at [t1 < t2 < ... < tn], all less than one second
      apart ([tn - t1 < 1 s]), give the rate [n] at [tn];
    - a single event at [t0] gives the rate [0] at [t0 + 1.5 s];
    - after every insertion, made at the readings of a clock that does not
      go back, every retained timestamp lies within [(now - window, now]],
      the old end excluded;
    - in general the rate read at [tn] is the number of the recorded events
      that are less than one second old, an event exactly one second old
      not being counted. *)
Theorem rate_window_correct :
  (forall (ts : list Z) (t1 tn : Z),
     head ts = Some t1 -> last ts = Some tn ->
     StronglySorted Z.lt ts ->
     tn - t1 < second ->
     getCurrentRate tn (record_all ts newTPSTracker)
       = float64_of_int (Z.of_nat (length ts))) /\
  (forall t0 : Z,
     getCurrentRate (t0 + 1500000000) (record_all [t0] newTPSTracker)
       = float64_of_int 0) /\
  (forall (ts : list Z) (now : Z),
     StronglySorted Z.le (ts ++ [now]) ->
     let t := record_all (ts ++ [now]) newTPSTracker in
     Forall (fun req => now - window t < req <= now) (requests t)) /\
  (forall (ts : list Z) (tn : Z),
     last ts = Some tn ->
     StronglySorted Z.lt ts ->
     getCurrentRate tn (record_all ts newTPSTracker)
       = float64_of_int
           (Z.of_nat (length (List.filter (fun t => tn - t <? second) ts)))).
Proof.
  split; [| split; [| split]]; cycle 3.
  { intros ts tn Hlast Hs.
    apply last_Some in Hlast as [pre ->].
    apply StronglySorted_lt_le in Hs.
    destruct (record_all_requests pre tn Hs) as [Hw Hreq].
    unfold getCurrentRate. rewrite Hw, Hreq, countAfter_filter.
    rewrite (filter_filter_cutoff _ _ _ (Z.le_refl _)).
    f_equal. f_equal. f_equal. apply List.filter_ext.
    intros t. destruct (Z.ltb_spec (tn - second) t), (Z.ltb_spec (tn - t) second);
      (reflexivity || lia). }
  - intros ts t1 tn Hhd Hlast Hs Hspan.
    apply last_Some in Hlast as [pre ->].
    apply StronglySorted_lt_le in Hs.
    destruct (record_all_requests pre tn Hs) as [Hw Hreq].
    unfold getCurrentRate. rewrite Hw, Hreq, countAfter_filter.
    rewrite (filter_filter_cutoff _ _ _ (Z.le_refl _)).
    f_equal. f_equal. f_equal. apply forallb_filter_id, forallb_forall.
    intros x Hx. apply Z.ltb_lt.
    assert (t1 <= x); [| lia].
    destruct pre as [|p pre]; simpl in Hhd, Hx.
    + injection Hhd as <-. destruct Hx as [<-|[]]. lia.
    + injection Hhd as <-. destruct Hx as [<-|Hx]; [lia |].
      apply StronglySorted_cons in Hs as [Hall _].
      rewrite Forall_forall in Hall. apply Hall, list_elem_of_In, Hx.
  - intros t0. unfold getCurrentRate, record_all, RecordRequest. simpl.
    destruct (Z.ltb_spec (t0 - second) t0) as [_|H];
      [| unfold second in H; lia]. simpl.
    destruct (Z.ltb_spec (t0 + 1500000000 - second) t0) as [H|_];
      [unfold second in H; lia | reflexivity].
  - intros ts now Hs t.
    destruct (record_all_requests ts now Hs) as [Hw Hreq].
    subst t. rewrite Hw, Hreq. apply Forall_forall. intros x Hx.
    apply list_elem_of_In, List.filter_In in Hx as [Hin Hgt].
    apply Z.ltb_lt in Hgt. split; [lia |].
    apply in_app_or in Hin as [Hin|[<-|[]]]; [| lia].
    eapply (StronglySorted_app_1_elem_of _ _ _ _ _ Hs);
      [apply list_elem_of_In; exact Hin | apply list_elem_of_singleton; reflexivity].
Qed.

Lemma rate_window_correct_witness :
  getCurrentRate 999999999
    (record_all [0; 250000000; 999999999] newTPSTracker)
    = float64_of_int 3 /\
  Forall (fun req => 1700000000 - second < req <= 1700000000)
    (requests (record_all ([0; 250000000; 999999999] ++ [1700000000])
                 newTPSTracker)).
Proof.
  destruct rate_window_correct as (Hrate & _ & Hwindow & _). split.
  - apply (Hrate [0; 250000000; 999999999] 0 999999999).
    + reflexivity.
    + reflexivity.
    + repeat constructor; lia.
    + unfold second. lia.
  - apply (Hwindow [0; 250000000; 999999999] 1700000000).
    repeat constructor; lia.
Defined.

(** ** Concurrent fetch-or-refresh *)

(** A goroutine alone goes through its four steps as [CheckFeature] does. *)
Lemma solo_run_is_CheckFeature (k : string) (st : State) :
  run [0; 0; 0; 0]%nat (spawn 1 k st) =
  {| shared := snd (CheckFeature k st);
     callers := [(k, Returned (fst (CheckFeature k st)))] |}.
Proof.
  unfold run, spawn, step_pool, CheckFeature, queryFeature. simpl.
  destruct (Cache.get _ _ _) as [s|]; simpl; [reflexivity |].
  destruct (on_check _ _ _) as [wait [err|result]]; reflexivity.
Qed.









(** ** Scenarios *)

(** A fresh client, an authority that admits with 1000 units remaining:
    [Consume 1] returns [(true, 999, nil)] and one usage report of 1 is
    sent. *)
Example scenario_consume_once :
  fst (Consume 1 (fresh (always licensed))) = (true, 999, None) /\
  reports (snd (Consume 1 (fresh (always licensed)))) = [(product_key, 1)] /\
  queries (snd (Consume 1 (fresh (always licensed)))) = [product_key].
Proof. vm_compute. repeat split. Qed.

(** [max_concurrency = 2]: the first two acquisitions are admitted, the third
    is denied, and after the first slot is released a fourth is admitted. *)
Example scenario_three_acquisitions :
  let '((release1, allowed1, _), st1) := AcquireSlot (fresh (always licensed)) in
  let '((_, allowed2, _), st2) := AcquireSlot st1 in
  let '((_, allowed3, _), st3) := AcquireSlot st2 in
  match call release1 st3 with
  | Some st4 =>
      let '((_, allowed4, _), _) := AcquireSlot st4 in
      (allowed1, allowed2, allowed3, allowed4) = (true, true, false, true)
  | None => False
  end.
Proof. vm_compute. reflexivity. Qed.

(** * Further properties of the code *)

(** ** The cache and fetch-or-refresh *)

(** An entry that is absent or expired stays so as time goes on. *)
Lemma cache_get_None_later (fc : featureCache) (t t' : Z) (k : string) :
  Cache.get fc t k = None -> t <= t' -> Cache.get fc t' k = None.
Proof.
  unfold Cache.get. destruct (data fc !! k) as [entry|]; [| reflexivity].
  destruct (Z.ltb_spec (expiresAt entry) t) as [H|H]; [| discriminate].
  intros _ Hle. destruct (Z.ltb_spec (expiresAt entry) t'); [reflexivity | lia].
Qed.

Lemma CheckFeature_miss_queries (st : State) (k : string) :
  Cache.get (cache (client st)) (now st) k = None ->
  queries (snd (CheckFeature k st)) = queries st ++ [k].
Proof.
  intros Hget. unfold CheckFeature, queryFeature. rewrite Hget.
  destruct (on_check _ _ _) as [wait [err|result]]; reflexivity.
Qed.

(** X1: [set] replaces the entry of its key (a second [set] for the same key
    leaves the cache as if the first had not happened) and does not change
    what [get] returns for any other key. *)
Theorem cache_set_replaces_and_frames (fc : featureCache) (k k' : string)
    (s1 s2 : FeatureStatus) (t1 t2 t' : Z) :
  Cache.set (Cache.set fc t1 k s1) t2 k s2 = Cache.set fc t2 k s2 /\
  (k <> k' ->
   Cache.get (Cache.set fc t1 k s1) t' k' = Cache.get fc t' k').
Proof.
  split.
  - unfold Cache.set. simpl. rewrite insert_insert_eq. reflexivity.
  - apply cache_get_set_ne.
Qed.

Lemma cache_set_replaces_and_frames_witness :
  Cache.get
    (Cache.set (Cache.set demo_cache 0 product_key (status_of exhausted))
       5 "feature-export" (status_of licensed))
    7 product_key
  = Some (status_of exhausted).
Proof.
  destruct (cache_set_replaces_and_frames
              (Cache.set demo_cache 0 product_key (status_of exhausted))
              "feature-export" product_key
              (status_of licensed) (status_of licensed) 5 5 7) as [_ H].
  rewrite H; [reflexivity | discriminate].
Defined.

(** X2: after [ClearCache] no key has an entry, whatever the time; the
    configured lifetime, the ledger, the tracker and the logs are as before,
    and the next [CheckFeature] sends a query. *)
Theorem ClearCache_empties (st : State) (k : string) (t : Z) :
  let st1 := snd (ClearCache st) in
  Cache.get (cache (client st1)) t k = None /\
  ttl (cache (client st1)) = ttl (cache (client st)) /\
  concurrencyState st1 = concurrencyState st /\
  c_tpsTracker (client st1) = c_tpsTracker (client st) /\
  queries st1 = queries st /\
  queries (snd (CheckFeature k st1)) = queries st ++ [k].
Proof.
  simpl. repeat split.
  unfold CheckFeature, queryFeature, Cache.get. simpl.
  rewrite lookup_empty.
  destruct (on_check _ _ _) as [wait [err|result]]; reflexivity.
Qed.

(** A [CheckFeature] that finds a fresh entry returns it and leaves the
    whole state as it was (no query is sent); one that does not sends exactly
    one query, for its key. *)
Lemma CheckFeature_queries_only_on_miss (st : State) (k : string) :
  match Cache.get (cache (client st)) (now st) k with
  | Some s => CheckFeature k st = (inl s, st)
  | None => queries (snd (CheckFeature k st)) = queries st ++ [k]
  end.
Proof.
  unfold CheckFeature, queryFeature.
  destruct (Cache.get _ _ _) as [s|]; [reflexivity |].
  destruct (on_check _ _ _) as [wait [err|result]]; reflexivity.
Qed.

(** X4: a failed query is not cached.  When the authority answers a miss
    with an error, [CheckFeature] returns that error and leaves the cache as
    it was, so the next call, at any instant not before the first, sends a
    query again. *)
Theorem failed_query_is_not_cached (st : State) (k : string) (wait d : Z)
    (err : error) :
  Cache.get (cache (client st)) (now st) k = None ->
  on_check (authority st) (length (queries st)) k = (wait, inl err) ->
  0 <= wait + d ->
  let '(r, st1) := CheckFeature k st in
  r = inr err /\
  cache (client st1) = cache (client st) /\
  queries (snd (CheckFeature k (sleep d st1))) = queries st ++ [k; k].
Proof.
  intros Hget Hans Hd.
  rewrite (CheckFeature_miss_error st k wait err Hget Hans).
  split; [reflexivity |]. split; [reflexivity |].
  rewrite CheckFeature_miss_queries.
  - simpl. rewrite <- app_assoc. reflexivity.
  - simpl. apply (cache_get_None_later _ (now st)); [exact Hget | lia].
Qed.

Lemma failed_query_is_not_cached_witness :
  let '(r, st1) := CheckFeature product_key (fresh unreachable) in
  r = inr (ErrAuthority "request failed") /\
  cache (client st1) = cache (client (fresh unreachable)) /\
  queries (snd (CheckFeature product_key (sleep 0 st1)))
    = queries (fresh unreachable) ++ [product_key; product_key].
Proof.
  apply (failed_query_is_not_cached (fresh unreachable) product_key
           (3 * second) 0 (ErrAuthority "request failed")).
  - reflexivity.
  - reflexivity.
  - vm_compute. discriminate.
Defined.

Lemma poll_hits (k : string) (s : FeatureStatus) (e : Z) (ds : list Z) :
  forall st : State,
    data (cache (client st)) !! k = Some {| status := s; expiresAt := e |} ->
    Forall (fun d => 0 <= d) ds ->
    now st + total ds <= e ->
    fst (poll k ds st) = replicate (length ds) (inl s) /\
    queries (snd (poll k ds st)) = queries st.
Proof.
  induction ds as [|d ds IH]; intros st Hentry Hpos Hsum; simpl.
  - split; reflexivity.
  - apply Forall_cons in Hpos as [Hd Hds]. simpl in Hsum.
    assert (Htot : 0 <= total ds).
    { clear -Hds. induction Hds; simpl; lia. }
    assert (Hhit : CheckFeature k (sleep d st) = (inl s, sleep d st)).
    { apply CheckFeature_hit. unfold Cache.get. simpl. rewrite Hentry. simpl.
      destruct (Z.ltb_spec e (now st + d)); [lia | reflexivity]. }
    rewrite Hhit.
    destruct (IH (sleep d st)) as [Hrs Hq]; [exact Hentry | exact Hds | simpl; lia |].
    destruct (poll k ds (sleep d st)) as [rs st2]. simpl in *.
    split; [f_equal; exact Hrs | exact Hq].
Qed.

(** X3: one query serves every call made while the entry is fresh.  After a
    [CheckFeature] that missed and got a snapshot, any number of further
    calls for the key, made as time passes but no later than the configured
    lifetime after the first, all return that snapshot, and the one query of
    the first call is the only one sent. *)
Theorem fresh_entry_serves_all_calls (st : State) (k : string) (wait : Z)
    (result : checkResult) (ds : list Z) :
  Cache.get (cache (client st)) (now st) k = None ->
  on_check (authority st) (length (queries st)) k = (wait, inr result) ->
  Forall (fun d => 0 <= d) ds ->
  total ds <= ttl (cache (client st)) ->
  let '(rs, st2) := poll k ds (snd (CheckFeature k st)) in
  rs = replicate (length ds) (inl (status_of result)) /\
  queries st2 = queries st ++ [k].
Proof.
  intros Hget Hans Hpos Hsum.
  rewrite (CheckFeature_miss st k wait result Hget Hans). simpl snd.
  match goal with |- context [poll k ds ?st1] =>
    destruct (poll_hits k (status_of result)
                (now st + wait + ttl (cache (client st))) ds st1)
      as [Hrs Hq]
  end.
  - simpl. apply lookup_insert_eq.
  - exact Hpos.
  - simpl. lia.
  - destruct (poll k ds _) as [rs st2]. simpl in *. split; assumption.
Qed.

Lemma fresh_entry_serves_all_calls_witness :
  let '(rs, st2) :=
    poll product_key [second; 4 * second; 5 * second]
      (snd (CheckFeature product_key (fresh (always licensed)))) in
  rs = replicate 3 (inl (status_of licensed)) /\
  queries st2 = queries (fresh (always licensed)) ++ [product_key].
Proof.
  apply (fresh_entry_serves_all_calls (fresh (always licensed)) product_key 0
           licensed [second; 4 * second; 5 * second]).
  - reflexivity.
  - reflexivity.
  - repeat constructor; vm_compute; discriminate.
  - vm_compute. discriminate.
Defined.

(** ** The admission primitives *)

Lemma ReportUsage_frame (k : string) (amount : float64) (st : State) :
  client (snd (ReportUsage k amount st)) = client st /\
  concurrencyState (snd (ReportUsage k amount st)) = concurrencyState st /\
  queries (snd (ReportUsage k amount st)) = queries st /\
  reports (snd (ReportUsage k amount st))
    = reports st ++ [(k, int_of_float64 amount)].
Proof.
  unfold ReportUsage. destruct (on_usage _ _ _ _) as [wait e].
  repeat split.
Qed.

(** X5: when the authority cannot be asked (a miss, answered by an error),
    each of the four primitives denies and returns that very error; no usage
    report is sent, the ledger is not touched and the release returned by
    [AcquireSlot] does nothing. *)
Theorem fetch_failure_denies_everywhere (st : State) (wait : Z) (err : error) :
  Cache.get (cache (client st)) (now st) product_key = None ->
  on_check (authority st) (length (queries st)) product_key
    = (wait, inl err) ->
  (forall amount,
     fst (Consume amount st) = (false, 0, Some err) /\
     reports (snd (Consume amount st)) = reports st) /\
  (forall x, fst (CheckCapacity x st) = (false, 0, Some err)) /\
  fst (CheckTPS st) = (false, f64_zero, Some err) /\
  fst (AcquireSlot st) = (noop_func, false, Some err) /\
  concurrencyState (snd (AcquireSlot st)) = concurrencyState st.
Proof.
  intros Hget Hans.
  pose proof (CheckFeature_miss_error st product_key wait err Hget Hans) as H.
  assert (H' : checkProductLimits (recordTPS st)
               = (inr err, snd (checkProductLimits (recordTPS st)))).
  { destruct (recordTPS_frame st) as (_ & _ & Hq & Hn & Hc).
    unfold checkProductLimits.
    rewrite (CheckFeature_miss_error (recordTPS st) product_key wait err).
    - reflexivity.
    - rewrite Hc, Hn. exact Hget.
    - rewrite Hq. unfold recordTPS.
      destruct (c_tpsTracker (client st)); exact Hans. }
  split; [| split; [| split; [| split]]].
  - intros amount. unfold Consume. rewrite H'. simpl. split; [reflexivity |].
    destruct (CheckFeature_frame _ _ _ _ H') as (_ & Hrep & _).
    rewrite Hrep. apply recordTPS_frame.
  - intros x. unfold CheckCapacity, checkProductLimits. rewrite H. reflexivity.
  - unfold CheckTPS, checkProductLimits. rewrite H. reflexivity.
  - unfold AcquireSlot, checkProductLimits. rewrite H. reflexivity.
  - unfold AcquireSlot, checkProductLimits. rewrite H. reflexivity.
Qed.

Lemma fetch_failure_denies_everywhere_witness :
  fst (Consume 1 (fresh unreachable))
    = (false, 0, Some (ErrAuthority "request failed")) /\
  reports (snd (Consume 1 (fresh unreachable))) = [] /\
  fst (AcquireSlot (fresh unreachable))
    = (noop_func, false, Some (ErrAuthority "request failed")).
Proof.
  destruct (fetch_failure_denies_everywhere (fresh unreachable) (3 * second)
              (ErrAuthority "request failed") eq_refl eq_refl)
    as (HC & _ & _ & HA & _).
  destruct (HC 1) as [H1 H2].
  split; [exact H1 |]. split; [exact H2 | exact HA].
Defined.

(** X6: when the snapshot admits and the usage report fails, [Consume]
    returns [(false, 0, err)] with the error of the report, although the
    report was sent (once) and the quota check had passed; the snapshot
    stays in the cache. *)
Theorem Consume_report_failure (st st1 : State) (amount wait : Z)
    (s : FeatureStatus) (err : error) :
  checkProductLimits (recordTPS st) = (inl s, st1) ->
  Enabled s = true ->
  on_usage (authority st1) (length (reports st1)) product_key
    (int_of_float64 (float64_of_int amount)) = (wait, Some err) ->
  let '(r, st2) := Consume amount st in
  r = (false, 0, Some err) /\
  reports st2
    = reports st ++ [(product_key, int_of_float64 (float64_of_int amount))] /\
  cache (client st2) = cache (client st1).
Proof.
  intros Hs Hen Hrep.
  destruct (CheckFeature_frame _ _ _ _ Hs) as (_ & Hr1 & _).
  destruct (recordTPS_frame st) as (Hr0 & _).
  unfold Consume. rewrite Hs, Hen. simpl.
  unfold reportProductUsage, ReportUsage. rewrite Hrep. simpl.
  split; [reflexivity |]. split; [congruence | reflexivity].
Qed.

Lemma Consume_report_failure_witness :
  let '(r, st2) := Consume 1 (fresh usage_down) in
  r = (false, 0, Some (ErrAuthority "usage report failed")) /\
  reports st2 = [(product_key, 1)] /\
  Cache.get (cache (client st2)) (now st2) product_key
    = Some (status_of licensed).
Proof.
  destruct (Consume_report_failure (fresh usage_down)
              (snd (checkProductLimits (recordTPS (fresh usage_down))))
              1 (3 * second) (status_of licensed)
              (ErrAuthority "usage report failed") eq_refl eq_refl eq_refl)
    as (Hr & Hrep & Hc).
  split; [exact Hr |]. split; [exact Hrep | reflexivity].
Defined.

(** X7: of the four primitives only [Consume] feeds the rate tracker.  Every
    [Consume], whatever its outcome, records exactly one request at the
    instant of the call; [CheckCapacity], [CheckTPS] and [AcquireSlot] leave
    the tracker as it was. *)
Theorem only_Consume_feeds_tracker (st : State) (amount x : Z) :
  c_tpsTracker (client (snd (Consume amount st)))
    = RecordRequest (now st) <$> c_tpsTracker (client st) /\
  c_tpsTracker (client (snd (CheckCapacity x st))) = c_tpsTracker (client st) /\
  c_tpsTracker (client (snd (CheckTPS st))) = c_tpsTracker (client st) /\
  c_tpsTracker (client (snd (AcquireSlot st))) = c_tpsTracker (client st).
Proof.
  split; [| split; [| split]].
  - unfold Consume.
    destruct (checkProductLimits (recordTPS st)) as [r st1] eqn:Hs.
    destruct (CheckFeature_frame _ _ _ _ Hs) as (_ & _ & _ & Ht & _).
    assert (Hrec : c_tpsTracker (client (recordTPS st))
                   = RecordRequest (now st) <$> c_tpsTracker (client st)).
    { unfold recordTPS. destruct (c_tpsTracker (client st)) eqn:E;
        simpl; [reflexivity | rewrite E; reflexivity]. }
    destruct r as [s|e]; [| simpl; congruence].
    destruct (negb (Enabled s)); [simpl; congruence |].
    destruct (ReportUsage_frame product_key (float64_of_int amount) st1)
      as (Hcl & _).
    unfold reportProductUsage.
    destruct (ReportUsage product_key (float64_of_int amount) st1)
      as [[e|] st2]; simpl in *; congruence.
  - unfold CheckCapacity.
    destruct (checkProductLimits st) as [r st1] eqn:Hs.
    destruct (CheckFeature_frame _ _ _ _ Hs) as (_ & _ & _ & Ht & _).
    destruct r as [s|e]; [| exact Ht].
    destruct (MaxCapacity s <=? 0); [exact Ht |].
    destruct (MaxCapacity s <=? x); exact Ht.
  - unfold CheckTPS.
    destruct (checkProductLimits st) as [r st1] eqn:Hs.
    destruct (CheckFeature_frame _ _ _ _ Hs) as (_ & _ & _ & Ht & _).
    destruct r as [s|e]; [| exact Ht].
    destruct (f64_le (MaxTPS s) f64_zero); [exact Ht |].
    destruct (f64_gt _ _); exact Ht.
  - unfold AcquireSlot.
    destruct (checkProductLimits st) as [r st1] eqn:Hs.
    destruct (CheckFeature_frame _ _ _ _ Hs) as (_ & _ & _ & Ht & _).
    destruct r as [s|e]; [| exact Ht].
    destruct (MaxConcurrency s <=? 0); [exact Ht |].
    destruct (MaxConcurrency s <=? _); exact Ht.
Qed.

(** ** Comparing the floats of integers *)

Lemma digits2_pos_upper (m : positive) :
  Z.pos m < 2 ^ Z.pos (digits2_pos m).
Proof.
  induction m as [m IH|m IH|]; simpl digits2_pos.
  - rewrite Pos2Z.inj_succ, Z.pow_succ_r by lia. lia.
  - rewrite Pos2Z.inj_succ, Z.pow_succ_r by lia. lia.
  - simpl. lia.
Qed.

(** The float of a positive integer below [2^53]: the mantissa has 53 bits
    and is the integer shifted left. *)
Lemma float64_of_int_normal (s : bool) (m : positive) :
  Z.pos m < 2 ^ 53 ->
  exists mz ez, binary_round f64_prec f64_emax s m 0 = S754_finite s mz ez /\
    -52 <= ez <= 0 /\ Z.pos mz = Z.pos m * 2 ^ (- ez) /\
    2 ^ 52 <= Z.pos mz < 2 ^ 53.
Proof.
  intros Hm.
  pose proof (digits2_pos_lower m) as Hlow.
  assert (Hdig : Z.pos (digits2_pos m) <= 53).
  { destruct (Z.le_gt_cases (Z.pos (digits2_pos m)) 53) as [H|H]; [exact H |].
    assert (2 ^ 53 <= 2 ^ (Z.pos (digits2_pos m) - 1))
      by (apply Z.pow_le_mono_r; lia). lia. }
  assert (Hnormal : forall mz, digits2_pos mz = 53%positive ->
            2 ^ 52 <= Z.pos mz < 2 ^ 53).
  { intros mz Hd. pose proof (digits2_pos_lower mz) as Hl.
    pose proof (digits2_pos_upper mz) as Hu. rewrite Hd in Hl, Hu.
    simpl in Hl. lia. }
  unfold binary_round, shl_align, fexp, emin, f64_prec, f64_emax.
  replace (Z.max (Z.pos (digits2_pos m) + 0 - 53) (3 - 1024 - 53) - 0)
    with (Z.pos (digits2_pos m) - 53) by lia.
  replace (Z.max (Z.pos (digits2_pos m) + 0 - 53) (3 - 1024 - 53))
    with (Z.pos (digits2_pos m) - 53) by lia.
  destruct (Z.pos (digits2_pos m) - 53) as [|p|p] eqn:Hdiff; [| lia |].
  - assert (Hd : digits2_pos m = 53%positive) by (apply Pos2Z.inj; lia).
    exists m, 0. split; [| split; [lia | split; [simpl; lia | auto]]].
    apply (binary_round_aux_exact s m 0); [exact Hd | lia].
  - assert (Hd : digits2_pos (Pos.iter xO m p) = 53%positive).
    { rewrite digits2_pos_iter. apply Pos2Z.inj. rewrite Pos2Z.inj_add. lia. }
    exists (Pos.iter xO m p), (Z.neg p).
    split; [| split; [lia | split; [| auto]]].
    + apply (binary_round_aux_exact s (Pos.iter xO m p) (Z.neg p));
        [exact Hd | lia].
    + rewrite Zpos_iter. reflexivity.
Qed.

Lemma float64_of_int_compare (a b : Z) :
  0 <= a < 2 ^ 53 -> 0 <= b < 2 ^ 53 ->
  SFcompare (float64_of_int a) (float64_of_int b) = Some (a ?= b).
Proof.
  intros Ha Hb. unfold float64_of_int, binary_normalize.
  destruct a as [|a|a], b as [|b|b]; try lia; try reflexivity.
  - destruct (float64_of_int_normal false b) as (mb & eb & -> & _); [lia |].
    reflexivity.
  - destruct (float64_of_int_normal false a) as (ma & ea & -> & _); [lia |].
    reflexivity.
  - destruct (float64_of_int_normal false a)
      as (ma & ea & -> & Hea & Hma & Hna); [lia |].
    destruct (float64_of_int_normal false b)
      as (mb & eb & -> & Heb & Hmb & Hnb); [lia |].
    simpl SFcompare. f_equal.
    change (Pos.compare_cont Eq ma mb) with (Z.pos ma ?= Z.pos mb).
    destruct (Z.compare_spec ea eb) as [Heq|Hlt|Hgt].
    + subst eb.
      assert (0 < 2 ^ (- ea)) by (apply Z.pow_pos_nonneg; lia).
      destruct (Z.compare_spec (Z.pos a) (Z.pos b)) as [E|L|G].
      * apply Z.compare_eq_iff. nia.
      * apply Z.compare_lt_iff. nia.
      * apply Z.compare_gt_iff. nia.
    + symmetry. apply Z.compare_lt_iff.
      (* a * 2^(-ea) < 2^53 and 2^52 <= b * 2^(-eb), with -ea > -eb *)
      assert (Hp : 2 ^ (- ea) = 2 ^ (- eb) * 2 ^ (eb - ea)).
      { rewrite <- Z.pow_add_r by lia. f_equal. lia. }
      assert (Hq : 2 <= 2 ^ (eb - ea)).
      { change 2 with (2 ^ 1) at 1. apply Z.pow_le_mono_r; lia. }
      assert (0 < 2 ^ (- eb)) by (apply Z.pow_pos_nonneg; lia).
      rewrite Hp in Hma. nia.
    + symmetry. apply Z.compare_gt_iff.
      assert (Hp : 2 ^ (- eb) = 2 ^ (- ea) * 2 ^ (ea - eb)).
      { rewrite <- Z.pow_add_r by lia. f_equal. lia. }
      assert (Hq : 2 <= 2 ^ (ea - eb)).
      { change 2 with (2 ^ 1) at 1. apply Z.pow_le_mono_r; lia. }
      assert (0 < 2 ^ (- ea)) by (apply Z.pow_pos_nonneg; lia).
      rewrite Hp in Hmb. nia.
Qed.

Lemma countAfter_bounds (cutoff : Z) (reqs : list Z) :
  0 <= countAfter cutoff reqs <= Z.of_nat (length reqs).
Proof.
  induction reqs as [|req rest IH]; simpl countAfter; simpl length; [lia |].
  destruct (cutoff <? req); lia.
Qed.

(** X8: with the internal measurement (no TPS callback of the application)
    and a limit [max_tps] that is the float of an integer [m], [CheckTPS]
    admits exactly when at most [m] of the requests that the tracker holds
    are less than a window old. *)
Theorem CheckTPS_counts_recent_requests (st st1 : State) (s : FeatureStatus)
    (t : tpsTracker) (m : Z) :
  checkProductLimits st = (inl s, st1) ->
  measures_internally (client st) = true ->
  c_tpsTracker (client st) = Some t ->
  Z.of_nat (length (requests t)) < 2 ^ 53 ->
  MaxTPS s = float64_of_int m ->
  0 < m < 2 ^ 53 ->
  let '((allowed, _, _), _) := CheckTPS st in
  allowed = true <-> countAfter (now st - window t) (requests t) <= m.
Proof.
  intros Hs Hint Ht Hlen Hmax Hm.
  pose proof (countAfter_bounds (now st - window t) (requests t)) as Hn.
  set (n := countAfter (now st - window t) (requests t)) in *.
  assert (Hcur : getCurrentTPS st = float64_of_int n).
  { unfold getCurrentTPS, measures_internally in *.
    assert (Hi : getInternalTPS st = float64_of_int n)
      by (unfold getInternalTPS; rewrite Ht; reflexivity).
    destruct (helpers (client st)) as [h|]; [| exact Hi].
    destruct (TPSProvider h) as [[|f]|]; [exact Hi | discriminate | exact Hi]. }
  unfold CheckTPS. rewrite Hs, Hcur, Hmax.
  assert (Hzero : f64_le (float64_of_int m) f64_zero = false).
  { unfold f64_le, SFleb. change f64_zero with (float64_of_int 0).
    rewrite float64_of_int_compare by lia.
    destruct (Z.compare_spec m 0); [lia | lia | reflexivity]. }
  rewrite Hzero. unfold f64_gt, SFltb.
  rewrite float64_of_int_compare by lia.
  destruct (Z.compare_spec m n); simpl; split; intros; try lia;
    try reflexivity; discriminate.
Qed.

Lemma CheckTPS_counts_recent_requests_witness :
  let st := sleep second (snd (Consume 1 (fresh (always licensed)))) in
  let '((allowed, _, _), _) := CheckTPS st in
  allowed = true <-> countAfter (second - second) [0] <= 100.
Proof.
  intros st.
  apply (CheckTPS_counts_recent_requests st (snd (checkProductLimits st))
           (status_of licensed) {| requests := [0]; window := second |} 100).
  - reflexivity.
  - reflexivity.
  - reflexivity.
  - vm_compute. reflexivity.
  - reflexivity.
  - vm_compute. split; reflexivity.
Defined.

(** ** The deprecated feature-level API *)

(** X9: [CheckCapacityDeprecated] admits up to and including the limit: with
    a positive [max_capacity] it admits exactly when
    [currentUsed <= max_capacity], and a denial comes with a reason and a nil
    error.  On the product key it admits whenever [CheckCapacity] does, and
    at [currentUsed = max_capacity] the two disagree. *)
Theorem CheckCapacityDeprecated_is_inclusive (st st1 : State) (k : string)
    (x : Z) (s : FeatureStatus) :
  CheckFeature k st = (inl s, st1) ->
  0 < MaxCapacity s ->
  let '((allowed, max, reason, err), _) := CheckCapacityDeprecated k x st in
  (allowed = true <-> x <= MaxCapacity s) /\
  max = MaxCapacity s /\ err = None /\
  (allowed = false -> reason = "capacity_exceeded") /\
  (k = product_key ->
   let '((allowed', _, _), _) := CheckCapacity x st in
   (allowed' = true -> allowed = true) /\
   (x = MaxCapacity s -> allowed = true /\ allowed' = false)).
Proof.
  intros Hs Hpos. unfold CheckCapacityDeprecated. rewrite Hs.
  destruct (Z.leb_spec (MaxCapacity s) 0) as [H0|_]; [lia |].
  destruct (Z.ltb_spec (MaxCapacity s) x) as [Hx|Hx]; cbv beta iota zeta.
  - split; [split; [discriminate | lia] |].
    split; [reflexivity |]. split; [reflexivity |].
    split; [reflexivity |]. intros ->.
    unfold CheckCapacity, checkProductLimits. rewrite Hs.
    destruct (Z.leb_spec (MaxCapacity s) 0) as [H0|_]; [lia |].
    destruct (Z.leb_spec (MaxCapacity s) x) as [_|H]; [| lia].
    split; [discriminate | lia].
  - split; [split; [lia | reflexivity] |].
    split; [reflexivity |]. split; [reflexivity |].
    split; [discriminate |]. intros ->.
    unfold CheckCapacity, checkProductLimits. rewrite Hs.
    destruct (Z.leb_spec (MaxCapacity s) 0) as [H0|_]; [lia |].
    destruct (Z.leb_spec (MaxCapacity s) x) as [H|H].
    + split; [discriminate |]. intros _. split; reflexivity.
    + split; [reflexivity | lia].
Qed.

Lemma CheckCapacityDeprecated_is_inclusive_witness :
  fst (CheckCapacityDeprecated product_key 500 (fresh (always licensed)))
    = (true, 500, "ok", None) /\
  fst (CheckCapacity 500 (fresh (always licensed)))
    = (false, 500, Some (ErrCapacityExceeded 500 500)) /\
  let '((allowed, max, reason, err), _) :=
    CheckCapacityDeprecated product_key 501 (fresh (always licensed)) in
  allowed = true <-> 501 <= 500.
Proof.
  split; [reflexivity |]. split; [reflexivity |].
  apply (CheckCapacityDeprecated_is_inclusive (fresh (always licensed))
           (snd (CheckFeature product_key (fresh (always licensed))))
           product_key 501 (status_of licensed)); reflexivity.
Defined.

(** X10: without a configured rate limit ([max_tps] zero, unset or negative)
    [CheckTPSDeprecated] denies, with reason "no_tps_limit" and a nil error,
    where [CheckTPS] admits; with a limit it denies exactly when
    [currentTPS > max_tps], as [CheckTPS] does, and returns the limit. *)
Theorem CheckTPSDeprecated_fails_closed (st st1 : State) (k : string)
    (currentTPS : float64) (s : FeatureStatus) :
  CheckFeature k st = (inl s, st1) ->
  let '((allowed, max, reason, err), _) := CheckTPSDeprecated k currentTPS st in
  err = None /\
  (f64_le (MaxTPS s) f64_zero = true ->
   allowed = false /\ reason = "no_tps_limit" /\
   (k = product_key -> fst (CheckTPS st) = (true, f64_zero, None))) /\
  (f64_le (MaxTPS s) f64_zero = false ->
   allowed = negb (f64_gt currentTPS (MaxTPS s)) /\ max = MaxTPS s).
Proof.
  intros Hs. unfold CheckTPSDeprecated. rewrite Hs.
  destruct (f64_le (MaxTPS s) f64_zero) eqn:Hz; cbv beta iota zeta.
  - split; [reflexivity |]. split; [| discriminate]. intros _.
    split; [reflexivity |]. split; [reflexivity |]. intros ->.
    unfold CheckTPS, checkProductLimits. rewrite Hs, Hz. reflexivity.
  - destruct (f64_gt currentTPS (MaxTPS s)); cbv beta iota zeta;
      (split; [reflexivity |]); (split; [discriminate |]);
      intros _; split; reflexivity.
Qed.

(** X11: on the product key, [ConsumeDeprecated] and [Consume] decide alike:
    the same [allowed], the same [remaining], the same usage reports and
    queries sent.  They differ in two things.  A denial by the snapshot is
    told by a [nil] error and the snapshot's reason in one, by the error
    "quota exceeded: reason" in the other.  And [Consume] records the call
    in the rate tracker where [ConsumeDeprecated] leaves the tracker as it
    was: the states the two calls leave are the same but for the tracker. *)
Theorem ConsumeDeprecated_agrees_with_Consume (st : State) (amount : Z) :
  let '((allowed, remaining, err), st2) := Consume amount st in
  let '((allowed', remaining', reason, err'), st2') :=
    ConsumeDeprecated product_key amount st in
  allowed = allowed' /\ remaining = remaining' /\
  reports st2 = reports st2' /\ queries st2 = queries st2' /\
  cache (client st2) = cache (client st2') /\
  (forall e, err' = Some e -> err = Some e) /\
  (err' = None -> allowed' = false -> err = Some (ErrQuotaExceeded reason)) /\
  (allowed' = true -> err = None /\ err' = None /\ reason = "ok") /\
  c_tpsTracker (client st2')
    = c_tpsTracker (client st) /\
  c_tpsTracker (client st2)
    = RecordRequest (now st) <$> c_tpsTracker (client st) /\
  st2 = with_client
          (with_tracker (RecordRequest (now st) <$> c_tpsTracker (client st))
             (client st2')) st2'.
Proof.
  destruct st as [n [iid ca h tr] cs au qs rs].
  unfold Consume, ConsumeDeprecated, checkProductLimits, reportProductUsage,
    CheckFeature, queryFeature, ReportUsage, recordTPS.
  destruct tr as [t|]; simpl;
    (destruct (Cache.get _ _ _) as [s|]; simpl;
     [| destruct (on_check _ _ _) as [wait [e|result]]; simpl;
        [repeat split; congruence |]]);
    match goal with
    | |- context [negb ?b] => destruct b; simpl
    end;
    try (repeat split; congruence);
    (destruct (on_usage _ _ _ _) as [wait' [e'|]]; simpl;
     repeat split; congruence).
Qed.

Lemma CheckTPSDeprecated_fails_closed_witness :
  fst (CheckTPSDeprecated product_key (float64_of_int 50)
         (fresh (always unlimited)))
    = (false, f64_zero, "no_tps_limit", None) /\
  fst (CheckTPS (fresh (always unlimited))) = (true, f64_zero, None).
Proof.
  pose proof (CheckTPSDeprecated_fails_closed (fresh (always unlimited))
                (snd (CheckFeature product_key (fresh (always unlimited))))
                product_key (float64_of_int 50) (status_of unlimited) eq_refl)
    as H.
  destruct (CheckTPSDeprecated product_key (float64_of_int 50)
              (fresh (always unlimited))) as [[[[allowed max] reason] err] st2]
    eqn:E.
  destruct H as (_ & H & _). destruct (H eq_refl) as (_ & _ & Hnew).
  split; [| exact (Hnew eq_refl)].
  rewrite <- E. reflexivity.
Defined.

(** ** The concurrency ledger, continued *)

Lemma append_assoc (s1 s2 s3 : string) :
  String.append (String.append s1 s2) s3
  = String.append s1 (String.append s2 s3).
Proof.
  induction s1 as [|a s1 IH]; [reflexivity |].
  change (String a (String.append (String.append s1 s2) s3)
          = String a (String.append s1 (String.append s2 s3))).
  rewrite IH. reflexivity.
Qed.

Lemma append_inj_r (s1 s2 s3 : string) :
  String.append s1 s2 = String.append s1 s3 -> s2 = s3.
Proof. apply (String.app_inj s1). Qed.

Lemma feature_slot_key_product (c : Client) :
  feature_slot_key c product_key = slot_key c.
Proof. unfold feature_slot_key, slot_key. apply append_assoc. Qed.

Lemma feature_slot_key_inj (c : Client) (k1 k2 : string) :
  feature_slot_key c k1 = feature_slot_key c k2 -> k1 = k2.
Proof. unfold feature_slot_key. apply append_inj_r. Qed.

Lemma ledger_count_insert_ne (key key' : string) (v : Z) (m : gmap string Z) :
  key <> key' -> ledger_count key' (<[key := v]> m) = ledger_count key' m.
Proof.
  intros Hne. unfold ledger_count. rewrite lookup_insert_ne by exact Hne.
  reflexivity.
Qed.

(** X12: the deprecated and the product-level acquisition share one ledger.
    [AcquireSlotDeprecated "__product__"] takes its slot from the very
    counter of [AcquireSlot]: same release function, same decision, same
    state afterwards.  For one client, two different feature identifiers
    have different counters: an acquisition for one leaves the count of the
    other as it was. *)
Theorem AcquireSlotDeprecated_shares_ledger (st : State) (k1 k2 : string) :
  (let '((release, allowed, err), st2) := AcquireSlot st in
   let '((release', allowed', _, _), st2') :=
     AcquireSlotDeprecated product_key st in
   release' = release /\ allowed' = allowed /\ st2' = st2) /\
  (k1 <> k2 ->
   let '(_, st2) := AcquireSlotDeprecated k1 st in
   ledger_count (feature_slot_key (client st) k2) (concurrencyState st2)
   = ledger_count (feature_slot_key (client st) k2) (concurrencyState st)).
Proof.
  split.
  - unfold AcquireSlot, AcquireSlotDeprecated, checkProductLimits.
    destruct (CheckFeature product_key st) as [[s|e] st1];
      [| repeat split].
    rewrite feature_slot_key_product.
    destruct (MaxConcurrency s <=? 0); [repeat split |].
    destruct (MaxConcurrency s <=? _); repeat split.
  - intros Hne. unfold AcquireSlotDeprecated.
    destruct (CheckFeature k1 st) as [[s|e] st1] eqn:Hs;
      destruct (CheckFeature_frame _ _ _ _ Hs) as (Hled & _ & _ & _ & _ & Hid);
      [| rewrite Hled; reflexivity].
    assert (Hk : forall k, feature_slot_key (client st1) k
                           = feature_slot_key (client st) k)
      by (intros k; unfold feature_slot_key; rewrite Hid; reflexivity).
    rewrite Hk.
    destruct (MaxConcurrency s <=? 0); [rewrite Hled; reflexivity |].
    destruct (MaxConcurrency s <=? _); [rewrite Hled; reflexivity |].
    simpl. rewrite Hled. apply ledger_count_insert_ne.
    intros Heq. apply Hne. exact (feature_slot_key_inj _ _ _ Heq).
Qed.

Lemma AcquireSlotDeprecated_shares_ledger_witness :
  let st := fresh (always licensed) in
  let '(_, st2) := AcquireSlotDeprecated "feature-export" st in
  ledger_count (feature_slot_key (client st) product_key) (concurrencyState st2)
  = ledger_count (feature_slot_key (client st) product_key) (concurrencyState st).
Proof.
  intros st.
  destruct (AcquireSlotDeprecated_shares_ledger st "feature-export" product_key)
    as [_ H].
  apply H. discriminate.
Defined.

Lemma CheckFeature_limit_is (max : Z) (st st1 : State)
    (r : FeatureStatus + error) :
  limit_is max st ->
  CheckFeature product_key st = (r, st1) ->
  limit_is max st1 /\
  (forall s, r = inl s -> MaxConcurrency s = max).
Proof.
  intros [Hauth Hcache].
  destruct (Cache.get (cache (client st)) (now st) product_key) as [s|]
    eqn:Hget.
  - rewrite (CheckFeature_hit st product_key s Hget). intros [= <- <-].
    split; [split; [exact Hauth | exact Hcache] |].
    intros s' [= <-]. unfold Cache.get in Hget.
    destruct (data (cache (client st)) !! product_key) as [entry|] eqn:He;
      [| discriminate].
    destruct (expiresAt entry <? now st); [discriminate |].
    injection Hget as <-. exact (Hcache entry eq_refl).
  - destruct (on_check (authority st) (length (queries st)) product_key)
      as [wait [err|result]] eqn:Ha.
    + rewrite (CheckFeature_miss_error st product_key wait err Hget Ha).
      intros [= <- <-].
      split; [split; [exact Hauth | exact Hcache] | discriminate].
    + rewrite (CheckFeature_miss st product_key wait result Hget Ha).
      intros [= <- <-]. split; [split; [exact Hauth |] |].
      * simpl. intros e. rewrite lookup_insert_eq. intros [= <-]. simpl.
        exact (Hauth _ _ _ _ Ha).
      * intros s [= <-]. exact (Hauth _ _ _ _ Ha).
Qed.

Lemma ledger_ok_count (key : string) (m : gmap string Z) :
  ledger_ok m -> 0 <= ledger_count key m <= int_max.
Proof.
  intros Hok. unfold ledger_count.
  destruct (m !! key) as [v|] eqn:E; simpl.
  - specialize (Hok _ _ E). lia.
  - unfold int_max. lia.
Qed.

Lemma release_body_ok (key key' : string) (m : gmap string Z) :
  ledger_ok m ->
  ledger_ok (release_body key' m) /\
  ledger_count key (release_body key' m) <= ledger_count key m.
Proof.
  intros Hok. pose proof (ledger_ok_count key' m Hok) as Hc'.
  pose proof (ledger_ok_count key m Hok) as Hc.
  unfold release_body.
  destruct (Z.leb_spec (ledger_count key' m) 1) as [H|H].
  - split.
    + intros k v Hk. apply lookup_delete_Some in Hk as [_ Hk].
      exact (Hok _ _ Hk).
    + unfold ledger_count at 1.
      destruct (decide (key' = key)) as [->|Hne].
      * rewrite lookup_delete_eq. simpl. lia.
      * rewrite lookup_delete_ne by exact Hne. fold (ledger_count key m). lia.
  - assert (Hw : wrap_int (ledger_count key' m - 1) = ledger_count key' m - 1)
      by (apply wrap_int_id; unfold is_int, int_min, int_max in *; lia).
    rewrite Hw. split.
    + intros k v Hk. apply lookup_insert_Some in Hk as [[_ <-]|[_ Hk]].
      * lia.
      * exact (Hok _ _ Hk).
    + destruct (decide (key' = key)) as [->|Hne].
      * rewrite ledger_count_insert. lia.
      * rewrite ledger_count_insert_ne by exact Hne. lia.
Qed.

Lemma run_op_keeps (max : Z) (id : string) (op : slot_op) (st : State) :
  is_int max ->
  limit_is max st /\ instanceID (client st) = id /\
  ledger_ok (concurrencyState st) /\
  ledger_count (String.append id "::__product__") (concurrencyState st)
    <= Z.max 0 max ->
  limit_is max (run_op op st) /\ instanceID (client (run_op op st)) = id /\
  ledger_ok (concurrencyState (run_op op st)) /\
  ledger_count (String.append id "::__product__")
    (concurrencyState (run_op op st)) <= Z.max 0 max.
Proof.
  intros Hmax (Hlim & Hid & Hok & Hle).
  destruct op as [|release|d]; simpl.
  - unfold AcquireSlot, checkProductLimits.
    destruct (CheckFeature product_key st) as [r st1] eqn:Hs.
    destruct (CheckFeature_frame _ _ _ _ Hs) as (Hled & _ & _ & _ & _ & Hid1).
    destruct (CheckFeature_limit_is max st st1 r Hlim Hs) as [Hlim1 Hr].
    assert (Hsame : limit_is max st1 /\ instanceID (client st1) = id /\
              ledger_ok (concurrencyState st1) /\
              ledger_count (String.append id "::__product__")
                (concurrencyState st1) <= Z.max 0 max)
      by (rewrite Hled, Hid1; auto).
    destruct r as [s|e]; [| exact Hsame].
    rewrite (Hr s eq_refl).
    destruct (Z.leb_spec max 0) as [H0|H0]; [exact Hsame |].
    unfold slot_key. rewrite Hid1, Hid, Hled.
    pose proof (ledger_ok_count (String.append id "::__product__")
                  (concurrencyState st) Hok) as Hc.
    destruct (Z.leb_spec max
                (ledger_count (String.append id "::__product__")
                   (concurrencyState st))) as [Hfull|Hfree];
      [exact Hsame |].
    simpl.
    assert (Hw : wrap_int (ledger_count (String.append id "::__product__")
                             (concurrencyState st) + 1)
                 = ledger_count (String.append id "::__product__")
                     (concurrencyState st) + 1)
      by (apply wrap_int_id; unfold is_int, int_min, int_max in *; lia).
    rewrite Hw.
    split; [exact Hlim1 |]. split; [congruence |]. split.
    + intros k v Hk. apply lookup_insert_Some in Hk as [[_ <-]|[_ Hk]].
      * unfold is_int, int_max in *. lia.
      * exact (Hok _ _ Hk).
    + rewrite ledger_count_insert. lia.
  - destruct release as [| |key']; simpl; auto.
    destruct (release_body_ok (String.append id "::__product__") key'
                (concurrencyState st) Hok) as [Hok' Hle'].
    split; [exact Hlim |]. split; [exact Hid |]. split; [exact Hok' | lia].
  - auto.
Qed.

Lemma run_ops_keeps (max : Z) (id : string) (ops : list slot_op) :
  is_int max ->
  forall st : State,
    limit_is max st /\ instanceID (client st) = id /\
    ledger_ok (concurrencyState st) /\
    ledger_count (String.append id "::__product__") (concurrencyState st)
      <= Z.max 0 max ->
    limit_is max (run_ops ops st) /\
    instanceID (client (run_ops ops st)) = id /\
    ledger_ok (concurrencyState (run_ops ops st)) /\
    ledger_count (String.append id "::__product__")
      (concurrencyState (run_ops ops st)) <= Z.max 0 max.
Proof.
  intros Hmax. induction ops as [|op ops IH]; intros st H0; simpl;
    [exact H0 |].
  apply IH. apply run_op_keeps; assumption.
Qed.

(** X13: the concurrency limit holds over any history.  In a process whose
    snapshots all carry the limit [max_concurrency = max], from a ledger in
    which the count of the product key is within the limit, whatever the
    order of acquisitions, of calls of release functions (any of them, any
    number of times) and of waits, the count of the product key stays
    between 0 and the limit, and no count below one is ever stored. *)
Theorem concurrency_limit_is_never_exceeded (max : Z) (ops : list slot_op)
    (st : State) :
  is_int max ->
  limit_is max st ->
  ledger_ok (concurrencyState st) ->
  ledger_count (slot_key (client st)) (concurrencyState st) <= Z.max 0 max ->
  let st' := run_ops ops st in
  0 <= ledger_count (slot_key (client st)) (concurrencyState st')
    <= Z.max 0 max /\
  ledger_ok (concurrencyState st').
Proof.
  intros Hmax Hlim Hok Hle.
  destruct (run_ops_keeps max (instanceID (client st)) ops Hmax st)
    as (_ & _ & Hok' & Hle').
  { split; [exact Hlim |]. split; [reflexivity |].
    split; [exact Hok | exact Hle]. }
  simpl. split; [| exact Hok'].
  pose proof (ledger_ok_count (slot_key (client st)) _ Hok').
  unfold slot_key in *. lia.
Qed.

Lemma ledger_ok_empty : ledger_ok ∅.
Proof. intros k v H. rewrite lookup_empty in H. discriminate. Qed.

Lemma concurrency_limit_is_never_exceeded_witness :
  let st := fresh (always licensed) in
  let st' :=
    run_ops [Acquire; Acquire; Acquire; Wait (20 * second); Acquire;
             Release (release_slot (slot_key demo_client));
             Release (release_slot (slot_key demo_client));
             Release (release_slot (slot_key demo_client)); Acquire] st in
  0 <= ledger_count (slot_key (client st)) (concurrencyState st') <= 2 /\
  ledger_ok (concurrencyState st').
Proof.
  intros st.
  apply (concurrency_limit_is_never_exceeded 2 _ st).
  - apply is_int_small. lia.
  - split.
    + intros n k wait result [= _ <-]. reflexivity.
    + intros entry H. simpl in H. rewrite lookup_empty in H. discriminate.
  - apply ledger_ok_empty.
  - vm_compute. discriminate.
Defined.

(** X14: an acquisition and a release each touch the entry of one key only.
    The release closure for [key] leaves the entry of every other key as it
    was, and so does [AcquireSlot] for every key but the product key of its
    client. *)
Theorem slot_operations_touch_one_key (st : State) (key key' : string)
    (m : gmap string Z) :
  (key <> key' -> release_body key m !! key' = m !! key') /\
  (key' <> slot_key (client st) ->
   concurrencyState (snd (AcquireSlot st)) !! key' = concurrencyState st !! key').
Proof.
  split.
  - intros Hne. unfold release_body.
    destruct (ledger_count key m <=? 1).
    + apply lookup_delete_ne. exact Hne.
    + apply lookup_insert_ne. exact Hne.
  - intros Hne. unfold AcquireSlot.
    destruct (checkProductLimits st) as [r st1] eqn:Hs.
    destruct (CheckFeature_frame _ _ _ _ Hs) as (Hled & _ & _ & _ & _ & Hid).
    assert (Hk : slot_key (client st1) = slot_key (client st))
      by (unfold slot_key; rewrite Hid; reflexivity).
    destruct r as [s|e]; [| simpl; rewrite Hled; reflexivity].
    destruct (MaxConcurrency s <=? 0); [simpl; rewrite Hled; reflexivity |].
    destruct (MaxConcurrency s <=? _); [simpl; rewrite Hled; reflexivity |].
    simpl. rewrite Hk, Hled. apply lookup_insert_ne. congruence.
Qed.

Lemma slot_operations_touch_one_key_witness :
  let m : gmap string Z := {["a::__product__" := 2; "b::__product__" := 1]} in
  release_body "b::__product__" m !! "a::__product__" = Some 2.
Proof.
  intros m.
  destruct (slot_operations_touch_one_key (fresh (always licensed))
              "b::__product__" "a::__product__" m) as [H _].
  rewrite H; [reflexivity | discriminate].
Defined.

(** ** The sliding-window tracker, continued *)

Lemma firstValidIdx_snoc (cutoff now : Z) (reqs : list Z) (i : nat) :
  cutoff < now ->
  (i <= firstValidIdx cutoff i (reqs ++ [now]) <= i + length reqs)%nat.
Proof.
  intros Hnow. revert i. induction reqs as [|req rest IH]; intros i; simpl.
  - destruct (Z.ltb_spec cutoff now); lia.
  - destruct (cutoff <? req); [lia |]. specialize (IH (S i)). lia.
Qed.

(** X15: [RecordRequest] never prunes the request it records.  On any
    tracker with a positive window, what is retained after a call at [now] is
    a suffix of the old requests followed by [now]: at most one request more
    than before, the new one last. *)
Theorem RecordRequest_keeps_new_request (now : Z) (t : tpsTracker) :
  0 < window t ->
  exists n : nat,
    requests (RecordRequest now t) = drop n (requests t) ++ [now] /\
    (n <= length (requests t))%nat.
Proof.
  intros Hw. unfold RecordRequest. simpl.
  pose proof (firstValidIdx_snoc (now - window t) now (requests t) 0
                ltac:(lia)) as [_ Hidx].
  set (idx := firstValidIdx (now - window t) 0 (requests t ++ [now])) in *.
  exists idx. split; [| lia].
  destruct idx as [|idx]; simpl (0 <? _)%nat; cbv iota.
  - rewrite drop_0. reflexivity.
  - rewrite drop_app_le by lia. reflexivity.
Qed.

Lemma RecordRequest_keeps_new_request_witness :
  exists n : nat,
    requests (RecordRequest (5 * second)
                {| requests := [0; 4500000000; 3]; window := second |})
      = drop n [0; 4500000000; 3] ++ [5 * second] /\
    (n <= 3)%nat.
Proof.
  apply (RecordRequest_keeps_new_request (5 * second)
           {| requests := [0; 4500000000; 3]; window := second |}).
  reflexivity.
Defined.

Lemma countAfter_filter_cutoff (c c' : Z) (l : list Z) :
  c <= c' ->
  countAfter c' (List.filter (fun r => c <? r) l) = countAfter c' l.
Proof.
  intros Hc. rewrite !countAfter_filter, filter_filter_cutoff by exact Hc.
  reflexivity.
Qed.

(** X16: pruning loses nothing that a later reading counts.  After the
    readings [ts ++ [now]] of a clock that does not go back were recorded on
    a new tracker, the rate read at any [now' >= now] is the number of all
    recorded instants that are less than a second before [now'], pruned or
    not. *)
Theorem rate_counts_all_recent_events (ts : list Z) (now now' : Z) :
  StronglySorted Z.le (ts ++ [now]) ->
  now <= now' ->
  getCurrentRate now' (record_all (ts ++ [now]) newTPSTracker)
  = float64_of_int (countAfter (now' - second) (ts ++ [now])).
Proof.
  intros Hs Hle.
  destruct (record_all_requests ts now Hs) as [Hw Hreq].
  unfold getCurrentRate. rewrite Hw, Hreq.
  rewrite countAfter_filter_cutoff by lia. reflexivity.
Qed.

Lemma rate_counts_all_recent_events_witness :
  getCurrentRate 2500000000
    (record_all ([0; 900000000; 1700000000] ++ [2100000000]) newTPSTracker)
  = float64_of_int 2.
Proof.
  rewrite (rate_counts_all_recent_events [0; 900000000; 1700000000]
             2100000000 2500000000).
  - reflexivity.
  - repeat constructor; lia.
  - lia.
Defined.

(** ** Measurement providers *)

(** X17: [RegisterHelpers] fails, and leaves the client as it was, exactly
    when the helpers are [nil] or have no [CapacityCounter].  Otherwise it
    stores helpers in which all three slots are filled: the callbacks of the
    application where it gave some, the default consumer and the internal TPS
    provider where it did not; nothing else of the state changes. *)
Theorem RegisterHelpers_validates_and_fills (st : State)
    (h : option HelperFunctions) :
  let '(e, st1) := RegisterHelpers h st in
  match h with
  | None => e = Some ErrHelpersNil /\ st1 = st
  | Some hs =>
      match CapacityCounter hs with
      | None => e = Some ErrCapacityCounterRequired /\ st1 = st
      | Some counter =>
          e = None /\
          helpers (client st1) =
            Some {| QuotaConsumer :=
                      Some (default defaultQuotaConsumer (QuotaConsumer hs));
                    TPSProvider :=
                      Some (default internalTPSProvider (TPSProvider hs));
                    CapacityCounter := Some counter |} /\
          cache (client st1) = cache (client st) /\
          c_tpsTracker (client st1) = c_tpsTracker (client st) /\
          instanceID (client st1) = instanceID (client st) /\
          concurrencyState st1 = concurrencyState st /\
          queries st1 = queries st
      end
  end.
Proof.
  unfold RegisterHelpers, Validate, SetDefaults.
  destruct h as [hs|]; [| split; reflexivity].
  destruct (CapacityCounter hs) as [counter|]; [| split; reflexivity].
  split; [reflexivity |]. simpl.
  destruct (QuotaConsumer hs), (TPSProvider hs); repeat split.
Qed.

(** X18: the helper-driven variants do nothing without helpers.  On a client
    on which no helpers were registered, [ConsumeWithContext] and
    [CheckCapacityWithHelper] return a configuration error and leave the
    whole state as it was: no query, no usage report, no request recorded by
    the tracker, and no default amount or count. *)
Theorem helper_variants_need_helpers (st : State) (args : list goValue) :
  helpers (client st) = None ->
  ConsumeWithContext args st
    = ((false, 0, Some ErrQuotaConsumerNotRegistered), st) /\
  CheckCapacityWithHelper st
    = ((false, 0, Some ErrCapacityCounterNotRegistered), st).
Proof.
  intros H. unfold ConsumeWithContext, CheckCapacityWithHelper. rewrite H.
  split; reflexivity.
Qed.

Lemma helper_variants_need_helpers_witness :
  ConsumeWithContext [VInt 10] (fresh (always licensed))
    = ((false, 0, Some ErrQuotaConsumerNotRegistered),
       fresh (always licensed)) /\
  CheckCapacityWithHelper (fresh (always licensed))
    = ((false, 0, Some ErrCapacityCounterNotRegistered),
       fresh (always licensed)).
Proof.
  apply (helper_variants_need_helpers (fresh (always licensed)) [VInt 10]).
  reflexivity.
Defined.

(** X19: after a successful registration each helper-driven operation is the
    plain one, fed by the registered callback or by its default:
    [ConsumeWithContext] is [Consume 1] when no consumer was given and
    [Consume (f args)] for a consumer [f]; [CheckCapacityWithHelper] is
    [CheckCapacity] of what the counter returns; [getCurrentTPS] reads the
    tracker when no provider was given and calls the provider otherwise. *)
Theorem registered_helpers_drive_the_variants (st st1 : State)
    (hs : HelperFunctions) (args : list goValue) :
  RegisterHelpers (Some hs) st = (None, st1) ->
  match QuotaConsumer hs with
  | None | Some defaultQuotaConsumer =>
      ConsumeWithContext args st1 = Consume 1 st1
  | Some (appQuotaConsumer f) =>
      ConsumeWithContext args st1 = Consume (f args) st1
  end /\
  (exists counter,
     CapacityCounter hs = Some counter /\
     CheckCapacityWithHelper st1 = CheckCapacity (counter (now st1)) st1) /\
  match TPSProvider hs with
  | None | Some internalTPSProvider =>
      getCurrentTPS st1 = getInternalTPS st /\
      getCurrentTPS st1 = getInternalTPS st1
  | Some (appTPSProvider f) => getCurrentTPS st1 = f (now st)
  end.
Proof.
  unfold RegisterHelpers, Validate.
  destruct (CapacityCounter hs) as [counter|] eqn:Hc; [| discriminate].
  intros [= <-].
  unfold ConsumeWithContext, CheckCapacityWithHelper, getCurrentTPS,
    getInternalTPS, SetDefaults. simpl. rewrite Hc.
  split; [| split].
  - destruct (QuotaConsumer hs) as [[|f]|]; reflexivity.
  - exists counter. split; reflexivity.
  - destruct (TPSProvider hs) as [[|f]|]; try split; reflexivity.
Qed.

Lemma registered_helpers_drive_the_variants_witness :
  let st1 := snd (RegisterHelpers (Some batch_helpers) (fresh (always licensed))) in
  ConsumeWithContext [VInt 10; VString "user-7"] st1 = Consume 10 st1 /\
  fst (ConsumeWithContext [VInt 10; VString "user-7"] st1) = (true, 990, None) /\
  fst (CheckCapacityWithHelper st1) = (true, 500, None).
Proof.
  intros st1.
  destruct (registered_helpers_drive_the_variants (fresh (always licensed))
              st1 batch_helpers [VInt 10; VString "user-7"] eq_refl)
    as (Hc & (counter & Hcounter & Hcap) & _).
  split; [exact Hc |]. split; [reflexivity |].
  rewrite Hcap. injection Hcounter as <-. reflexivity.
Defined.

(** ** Configuration *)

(** X20: [SDKConfig.Validate] succeeds exactly when the three required
    strings are not empty and the product limits, when there are some, are
    valid.  When one of the three strings is empty it fails and leaves the
    configuration as it was.  Otherwise it writes the defaults before it
    looks at the limits: each of the four zero settings is replaced by its
    default and every other value is kept, whether the call then succeeds or
    fails on the limits; afterwards none of the four is zero, and a second
    validation returns the same result and changes nothing.  Without limits
    (as in the revision of the function that has none) it succeeds exactly
    when the three strings are not empty. *)
Theorem SDKConfig_Validate_defaults (c : Config.SDKConfig) :
  let '(e, c') := Config.SDKConfig_Validate c in
  (e = None <->
   (Config.LCCURL c <> "" /\ Config.ProductID c <> "" /\
    Config.ProductVersion c <> "") /\
   Config.ProductLimits_Validate (Config.Limits c) = None) /\
  (Config.LCCURL c = "" \/ Config.ProductID c = "" \/
   Config.ProductVersion c = "" ->
   e <> None /\ c' = c) /\
  (Config.LCCURL c <> "" /\ Config.ProductID c <> "" /\
   Config.ProductVersion c <> "" ->
   e = Config.ProductLimits_Validate (Config.Limits c) /\
   Config.CheckInterval c' =
     (if Config.CheckInterval c =? 0 then 30 * second
      else Config.CheckInterval c) /\
   Config.CacheTTL c' =
     (if Config.CacheTTL c =? 0 then 10 * second else Config.CacheTTL c) /\
   Config.Timeout c' =
     (if Config.Timeout c =? 0 then 5 * second else Config.Timeout c) /\
   Config.MaxRetries c' =
     (if Config.MaxRetries c =? 0 then 3 else Config.MaxRetries c) /\
   (Config.LCCURL c', Config.ProductID c', Config.ProductVersion c',
    Config.FailOpen c', Config.Limits c')
   = (Config.LCCURL c, Config.ProductID c, Config.ProductVersion c,
      Config.FailOpen c, Config.Limits c) /\
   Config.CacheTTL c' <> 0 /\ Config.CheckInterval c' <> 0 /\
   Config.Timeout c' <> 0 /\ Config.MaxRetries c' <> 0 /\
   Config.SDKConfig_Validate c' = (e, c')) /\
  (Config.Limits c = None ->
   (e = None <->
    Config.LCCURL c <> "" /\ Config.ProductID c <> "" /\
    Config.ProductVersion c <> "")).
Proof.
  unfold Config.SDKConfig_Validate.
  destruct (String.eqb_spec (Config.LCCURL c) "") as [H1|H1];
    [repeat split; try discriminate; tauto |].
  destruct (String.eqb_spec (Config.ProductID c) "") as [H2|H2];
    [repeat split; try discriminate; tauto |].
  destruct (String.eqb_spec (Config.ProductVersion c) "") as [H3|H3];
    [repeat split; try discriminate; tauto |].
  split; [tauto |]. split; [tauto |]. split.
  - intros _. simpl.
    destruct (String.eqb_spec (Config.LCCURL c) ""); [contradiction |].
    destruct (String.eqb_spec (Config.ProductID c) ""); [contradiction |].
    destruct (String.eqb_spec (Config.ProductVersion c) ""); [contradiction |].
    unfold Config.set_defaults. simpl.
    destruct (Z.eqb_spec (Config.CacheTTL c) 0) as [Ht|Ht];
    destruct (Z.eqb_spec (Config.CheckInterval c) 0) as [Hi|Hi];
    destruct (Z.eqb_spec (Config.Timeout c) 0) as [Ho|Ho];
    destruct (Z.eqb_spec (Config.MaxRetries c) 0) as [Hr|Hr];
    repeat match goal with
           | |- _ /\ _ => split
           | |- _ <> _ => first [assumption | unfold second; lia]
           | |- _ = _ => reflexivity
           end;
    repeat match goal with
           | |- context [?x =? 0] =>
               let H := fresh in
               destruct (Z.eqb_spec x 0) as [H|H];
               [try (unfold second in H; lia); try contradiction |]
           end; try reflexivity.
  - intros ->. simpl. tauto.
Qed.

(** X21: [NewClientWithKeyPair] takes the cache lifetime from the
    configuration as it is and applies no default.  A client built from a
    configuration whose [CacheTTL] is zero (one that was not validated, as in
    [examples/zero-intrusion/main.go]) or negative keeps an entry for no
    longer than the instant at which it was stored: a call at any later
    instant queries the authority again. *)
Theorem zero_ttl_client_always_queries (cfg : Config.SDKConfig)
    (keyPair : option KeyPair) (c : Client) (a : Authority) (k : string)
    (t wait d : Z) (result : checkResult) :
  NewClientWithKeyPair cfg keyPair = inl c ->
  Config.CacheTTL cfg <= 0 ->
  on_check a 0 k = (wait, inr result) ->
  0 < d ->
  ttl (cache c) = Config.CacheTTL cfg /\
  let '(r1, st1) := CheckFeature k (boot c a t) in
  r1 = inl (status_of result) /\
  queries (snd (CheckFeature k (sleep d st1))) = [k; k].
Proof.
  intros Hnew Httl Hans Hd.
  unfold NewClientWithKeyPair in Hnew.
  destruct keyPair as [kp|]; [| discriminate].
  destruct (GetFingerprint kp) as [fp|cause]; [| discriminate].
  injection Hnew as Hc. subst c. split; [reflexivity |].
  rewrite (CheckFeature_miss _ k wait result); [| reflexivity | exact Hans].
  split; [reflexivity |].
  rewrite CheckFeature_miss_queries; [reflexivity |].
  simpl. rewrite cache_get_set. simpl.
  destruct (Z.ltb_spec (t + wait + Config.CacheTTL cfg) (t + wait + d));
    [reflexivity | lia].
Qed.

Lemma validate_features_None (features : list Config.FeatureConfig) :
  forall (i : Z) (seen : gset string),
    Config.validate_features i seen features = None <->
    Forall (fun f => Config.FeatureConfig_Validate f = None) features /\
    NoDup (map Config.ID features) /\
    (forall f, f ∈ features -> Config.ID f ∉ seen).
Proof.
  induction features as [|f rest IH]; intros i seen; simpl.
  - split; [intros _ | reflexivity].
    split; [constructor |]. split; [constructor |].
    intros f Hf. apply elem_of_nil in Hf. contradiction.
  - destruct (Config.FeatureConfig_Validate f) as [err|] eqn:Hv.
    + split; [discriminate |]. intros (Hall & _).
      apply Forall_cons in Hall as [Hf _]. congruence.
    + destruct (bool_decide_reflect (Config.ID f ∈ seen)) as [Hin|Hnin].
      * split; [discriminate |]. intros (_ & _ & Hseen).
        exfalso. apply (Hseen f); [left | exact Hin].
      * rewrite IH. split.
        -- intros (Hall & Hnd & Hseen). split; [constructor; assumption |].
           split.
           ++ constructor; [| exact Hnd].
              intros Hin. apply list_elem_of_fmap in Hin as (g & Hid & Hg).
              apply (Hseen g Hg). rewrite <- Hid.
              apply elem_of_union_l, elem_of_singleton. reflexivity.
           ++ intros g Hg. apply elem_of_cons in Hg as [->|Hg]; [exact Hnin |].
              intros Hin. apply (Hseen g Hg), elem_of_union_r, Hin.
        -- intros (Hall & Hnd & Hseen).
           apply Forall_cons in Hall as [_ Hall].
           apply NoDup_cons in Hnd as [Hfresh Hnd].
           split; [exact Hall |]. split; [exact Hnd |].
           intros g Hg Hin. apply elem_of_union in Hin as [Hin|Hin].
           ++ apply elem_of_singleton in Hin. apply Hfresh.
              apply list_elem_of_fmap. exists g. split; [symmetry; exact Hin | exact Hg].
           ++ apply (Hseen g); [right; exact Hg | exact Hin].
Qed.

(** X22: [Manifest.Validate] accepts a manifest exactly when its SDK
    section is valid, every feature is valid and no two features have the
    same identifier. *)
Theorem Manifest_Validate_accepts (m : Config.Manifest) :
  fst (Config.Manifest_Validate m) = None <->
  fst (Config.SDKConfig_Validate (Config.SDK m)) = None /\
  Forall (fun f => Config.FeatureConfig_Validate f = None)
    (Config.Features m) /\
  NoDup (Config.GetFeatureIDs m).
Proof.
  unfold Config.Manifest_Validate, Config.GetFeatureIDs.
  destruct (Config.SDKConfig_Validate (Config.SDK m)) as [[e|] sdk]; simpl.
  - split; [discriminate | intros [H _]; discriminate].
  - rewrite validate_features_None. split.
    + intros (Hall & Hnd & _). auto.
    + intros (_ & Hall & Hnd). split; [exact Hall |]. split; [exact Hnd |].
      intros f _. apply not_elem_of_empty.
Qed.

Lemma find_feature_spec (id : string) (features : list Config.FeatureConfig) :
  match Config.find_feature id features with
  | Some f =>
      exists pre post, features = pre ++ f :: post /\ Config.ID f = id /\
        Forall (fun g => Config.ID g <> id) pre
  | None => Forall (fun g => Config.ID g <> id) features
  end.
Proof.
  induction features as [|g rest IH]; simpl; [constructor |].
  destruct (String.eqb_spec (Config.ID g) id) as [Heq|Hne].
  - exists [], rest. repeat split; [exact Heq | constructor].
  - destruct (Config.find_feature id rest) as [f|].
    + destruct IH as (pre & post & -> & Hid & Hpre).
      exists (g :: pre), post. repeat split; [exact Hid |].
      constructor; assumption.
    + constructor; assumption.
Qed.

(** X23: [FindFeature] returns the first feature with the identifier: what
    it returns has that identifier and no feature before it has;
    [HasFeature] holds exactly for the identifiers that [GetFeatureIDs]
    lists; and when the identifiers are pairwise different (as in a validated
    manifest) [FindFeature] finds every feature by its identifier. *)
Theorem FindFeature_finds_first (m : Config.Manifest) (id : string) :
  (Config.HasFeature m id = true <-> id ∈ Config.GetFeatureIDs m) /\
  (forall f, Config.FindFeature m id = Some f ->
     exists pre post, Config.Features m = pre ++ f :: post /\
       Config.ID f = id /\ id ∉ map Config.ID pre) /\
  (NoDup (Config.GetFeatureIDs m) ->
   forall f, f ∈ Config.Features m -> Config.ID f = id ->
     Config.FindFeature m id = Some f).
Proof.
  unfold Config.HasFeature, Config.FindFeature, Config.GetFeatureIDs.
  pose proof (find_feature_spec id (Config.Features m)) as H.
  destruct (Config.find_feature id (Config.Features m)) as [f|].
  - destruct H as (pre & post & Hm & Hid & Hpre). rewrite Hm.
    assert (Hnotin : id ∉ map Config.ID pre).
    { intros Hin. apply list_elem_of_fmap in Hin as (g & Hg & Hin).
      rewrite Forall_forall in Hpre. apply (Hpre g Hin). congruence. }
    split; [| split].
    + split; [intros _ | reflexivity].
      rewrite map_app. apply elem_of_app. right. simpl.
      apply elem_of_cons. left. symmetry. exact Hid.
    + intros f' [= <-]. exists pre, post. auto.
    + intros Hnd g Hg Hgid. f_equal.
      rewrite map_app in Hnd. simpl in Hnd.
      apply NoDup_app in Hnd as (_ & Hdisj & Hnd').
      apply NoDup_cons in Hnd' as [Hfresh _].
      apply elem_of_app in Hg as [Hg|Hg].
      * exfalso. apply Hnotin. apply list_elem_of_fmap. exists g. auto.
      * apply elem_of_cons in Hg as [->|Hg]; [reflexivity |].
        exfalso. apply Hfresh. apply list_elem_of_fmap. exists g.
        split; [congruence | exact Hg].
  - split; [| split].
    + split; [discriminate |]. intros Hin.
      apply list_elem_of_fmap in Hin as (g & Hg & Hin).
      rewrite Forall_forall in H. exfalso. apply (H g Hin). congruence.
    + discriminate.
    + intros _ g Hg Hgid. rewrite Forall_forall in H.
      exfalso. exact (H g Hg Hgid).
Qed.




Lemma zero_ttl_client_always_queries_witness :
  let c := {| instanceID := "fp-abc123";
              cache := {| data := ∅; ttl := 0 |};
              helpers := None;
              c_tpsTracker := Some newTPSTracker |} in
  NewClientWithKeyPair example_config (Some demo_keypair) = inl c /\
  let '(r1, st1) := CheckFeature product_key (boot c (always licensed) 0) in
  r1 = inl (status_of licensed) /\
  queries (snd (CheckFeature product_key (sleep 1 st1)))
    = [product_key; product_key].
Proof.
  intros c. split; [reflexivity |].
  apply (zero_ttl_client_always_queries example_config (Some demo_keypair) c
           (always licensed) product_key 0 0 1 licensed).
  - reflexivity.
  - vm_compute. discriminate.
  - reflexivity.
  - reflexivity.
Defined.


Lemma SDKConfig_Validate_defaults_witness :
  let '(e, c') := Config.SDKConfig_Validate negative_capacity_config in
  e = Some {| Config.Field := "limits.max_capacity";
              Config.Message := "must be non-negative" |} /\
  Config.CacheTTL c' = 10 * second /\
  c' <> negative_capacity_config.
Proof.
  pose proof (SDKConfig_Validate_defaults negative_capacity_config) as H.
  destruct (Config.SDKConfig_Validate negative_capacity_config) as [e c'].
  destruct H as (_ & _ & H & _).
  destruct H as (He & _ & Httl & _).
  - repeat split; discriminate.
  - split; [rewrite He; reflexivity |]. split; [rewrite Httl; reflexivity |].
    intros Heq. rewrite Heq in Httl. vm_compute in Httl. discriminate Httl.
Defined.

Lemma Manifest_Validate_accepts_witness :
  fst (Config.Manifest_Validate
         {| Config.SDK := example_config;
            Config.Features := [export_feature] |}) = None.
Proof.
  apply Manifest_Validate_accepts. split; [reflexivity |]. split.
  - repeat constructor.
  - simpl. apply NoDup_singleton.
Defined.

Lemma FindFeature_finds_first_witness :
  Config.FindFeature demo_manifest "feature-report" = Some unnamed_feature.
Proof.
  destruct (FindFeature_finds_first demo_manifest "feature-report")
    as (_ & _ & H).
  apply H.
  - unfold Config.GetFeatureIDs. simpl.
    apply NoDup_cons. split; [| apply NoDup_singleton].
    intros Hin. apply list_elem_of_singleton in Hin. discriminate.
  - right. left.
  - reflexivity.
Defined.
